(** * Idempotency middleware of [server.js], over the table of [db_schema.sql]

    A shallow embedding of the request gate ([idempotencyMiddleware]), of the
    response interception it installs on [res.json], of the error-handling
    middleware and of the clean-up job ([cleanupExpiredKeys]), together with
    the statements they send to the [idempotency_keys] table; and of the
    control of the two route handlers ([POST /api/payment], [POST
    /api/orders]), with the database's answers given by the environment.

    Conventions.
    - A timestamp is an integer number of microseconds; [NOW()] is supplied
      by the environment at every statement.
    - The table is a finite map from [idempotency_key] to the remaining
      columns: the column is declared [NOT NULL UNIQUE], so a key names at
      most one row.  The [id SERIAL] column is left out: the code only reads
      the number of rows of [RETURNING id].
    - A [JSONB] column holds a JSON value; [JSON.stringify] followed by the
      conversion to [JSONB], and the driver's parse on the way back, are the
      identity on JSON values.  SQL [NULL] is [None]; the driver hands it to
      JavaScript as [null].
    - What a handler gives to [res.json] is a JSON value: the contract of a
      guarded operation is a status code and a serialized body.
    - Effects are threaded through a state-and-exception monad over a
      [World]: the table, the response object [res] (its [statusCode] and
      its current [json] method) and a trace of the observable events. *)

From stdpp Require Import base strings gmap list fin_maps.
From Stdlib Require Import ZArith Lia.

Local Open Scope string_scope.
Local Open Scope Z_scope.

(** ** Values *)

(** JSON values, as [express.json()] parses them and as the driver returns
    the content of a [JSONB] column.  Numbers are kept integral: only their
    being zero or not is ever inspected. *)
#[local] Set Warnings "-register-all".
Inductive json : Type :=
| JNull
| JBool (b : bool)
| JNum (n : Z)
| JStr (s : string)
| JArr (items : list json)
| JObj (fields : list (string * json)).

(** JavaScript's truthiness ([if (v)]) on a JSON value. *)
Definition ToBoolean (v : json) : bool :=
  match v with
  | JNull => false
  | JBool b => b
  | JNum n => negb (Z.eqb n 0)
  | JStr s => negb (String.eqb s "")
  | JArr _ => true
  | JObj _ => true
  end.

(** [CREATE TYPE processing_status AS ENUM (...)]. *)
Inductive processing_status_enum : Type :=
| pending
| processing
| completed
| failed.

Definition is_processing (s : processing_status_enum) : bool :=
  match s with processing => true | _ => false end.

(** One row of [idempotency_keys], without its key. *)
Record Row : Type := mkRow {
  request_method : string;
  request_path : string;
  request_body : option json;
  response_status : option Z;
  response_body : option json;
  processing_status : processing_status_enum;
  created_at : Z;
  updated_at : Z;
  expires_at : Z
}.

Abbreviation Table := (gmap string Row).

(** [INTERVAL '24 hours'], in microseconds. *)
Definition INTERVAL_24_HOURS : Z := 24 * 60 * 60 * 1000000.

(** ** The four statements *)

Module Sql.

(** [SELECT response_status, response_body, processing_status, expires_at
     FROM idempotency_keys WHERE idempotency_key = $1 AND expires_at > NOW()] *)
Definition checkQuery (now : Z) (key : string) (t : Table) : list Row :=
  match t !! key with
  | Some r => if bool_decide (expires_at r > now) then [r] else []
  | None => []
  end.

(** The row written by the [INSERT]: the four bound parameters, the literal
    ['processing'], [NOW() + INTERVAL '24 hours'], and the column defaults
    ([NULL] for the response columns, [NOW()] for both time stamps). *)
Definition fresh_row (now : Z) (method path : string) (body : json) : Row :=
  {| request_method := method;
     request_path := path;
     request_body := Some body;
     response_status := None;
     response_body := None;
     processing_status := processing;
     created_at := now;
     updated_at := now;
     expires_at := now + INTERVAL_24_HOURS |}.

(** [INSERT INTO idempotency_keys (...) VALUES (...)
     ON CONFLICT (idempotency_key) DO NOTHING RETURNING id]:
    the new table and the number of rows returned.  The conflict is with any
    row holding the key, whatever its [expires_at]. *)
Definition insertQuery (now : Z) (key method path : string) (body : json)
    (t : Table) : Table * nat :=
  match t !! key with
  | Some _ => (t, 0%nat)
  | None => (<[key := fresh_row now method path body]> t, 1%nat)
  end.

(** The [SET] clause of the [UPDATE]. *)
Definition set_response (now : Z) (status : option Z) (body : json) (r : Row) : Row :=
  {| request_method := request_method r;
     request_path := request_path r;
     request_body := request_body r;
     response_status := status;
     response_body := Some body;
     processing_status := completed;
     created_at := created_at r;
     updated_at := now;
     expires_at := expires_at r |}.

(** [UPDATE idempotency_keys SET response_status = $1, response_body = $2,
     processing_status = 'completed', updated_at = NOW()
     WHERE idempotency_key = $3] *)
Definition updateQuery (now : Z) (status : option Z) (body : json) (key : string)
    (t : Table) : Table :=
  alter (set_response now status body) key t.

(** [DELETE FROM idempotency_keys WHERE expires_at < NOW()]:
    the remaining rows and [rowCount]. *)
Definition deleteQuery (now : Z) (t : Table) : Table * nat :=
  (filter (λ kr : string * Row, ¬ (expires_at kr.2 < now)) t,
   size (filter (λ kr : string * Row, expires_at kr.2 < now) t)).

End Sql.

(** ** Requests, the environment and the observable events *)

(** What the middleware reads of [req]. *)
Record Request : Type := mkRequest {
  header_idempotency_key : option string;   (* req.headers['idempotency-key'] *)
  method : string;
  path : string;
  body : json
}.

(** What lies outside the program during one request: the value of [NOW()]
    at each statement, and whether [pool.connect()] or a statement rejects
    (with the message of the error it rejects with). *)
Record Env : Type := mkEnv {
  now_check : Z;
  now_insert : Z;
  now_update : Z;
  connect_error : option string;
  check_error : option string;
  insert_error : option string;
  update_error : option string
}.

Inductive Statement : Type := SelectKey | InsertKey | UpdateKey | DeleteExpired.

Inductive Event : Type :=
| PoolConnect                                   (* pool.connect() resolved *)
| ClientRelease                                 (* client.release() *)
| Query (q : Statement)                   (* a statement was sent *)
| ConsoleError (label : string)                 (* console.error(label, ...) *)
| ConsoleLogCleaned (rowCount : nat)            (* console.log(`Cleaned up ...`) *)
| HandlerInvoked                                (* a route handler was entered *)
| Sent (status : option Z) (payload : json).    (* the original res.json *)

(** The [json] method the response object currently carries: Express's own,
    or the closure installed by the middleware, which captured the key and
    the client. *)
Inductive JsonMethod : Type :=
| OriginalJson
| PatchedJson (idempotencyKey : string).

Record World : Type := mkWorld {
  idempotency_keys : Table;
  res_statusCode : option Z;
  res_json_method : JsonMethod;
  trace : list Event
}.

(** ** The monad: state over [World], with JavaScript exceptions *)

Inductive Completion (A : Type) : Type :=
| Normal (a : A)
| Throw (message : string).
Arguments Normal {A} a.
Arguments Throw {A} message.

Definition M (A : Type) : Type := World → Completion A * World.

#[export] Instance M_ret : MRet M := λ A a w, (Normal a, w).

#[export] Instance M_bind : MBind M := λ A B k m w,
  match m w with
  | (Normal a, w') => k a w'
  | (Throw e, w') => (Throw e, w')
  end.

Definition throw {A} (message : string) : M A := λ w, (Throw message, w).

(** [try { body } catch (error) { handler error }] *)
Definition try_catch {A} (body : M A) (handler : string → M A) : M A :=
  λ w, match body w with
       | (Normal a, w') => (Normal a, w')
       | (Throw e, w') => handler e w'
       end.

(** [try { body } catch (error) { handler error } finally { final }]:
    [final] runs on every way out of the first two blocks, and what they
    threw is thrown again after it. *)
Definition try_catch_finally (body : M unit) (handler : string → M unit)
    (final : M unit) : M unit :=
  λ w, match try_catch body handler w with
       | (Normal _, w') => final w'
       | (Throw e, w') =>
           match final w' with
           | (Normal _, w'') => (Throw e, w'')
           | (Throw e', w'') => (Throw e', w'')
           end
       end.

Definition emit (e : Event) : M unit :=
  λ w, (Normal tt,
        {| idempotency_keys := idempotency_keys w;
           res_statusCode := res_statusCode w;
           res_json_method := res_json_method w;
           trace := trace w ++ [e] |}).

Definition get_table : M Table := λ w, (Normal (idempotency_keys w), w).

Definition put_table (t : Table) : M unit :=
  λ w, (Normal tt,
        {| idempotency_keys := t;
           res_statusCode := res_statusCode w;
           res_json_method := res_json_method w;
           trace := trace w |}).

(** A statement that the environment makes fail rejects before touching the
    table. *)
Definition or_reject (error : option string) : M unit :=
  match error with
  | Some message => throw message
  | None => mret tt
  end.

Definition get_statusCode : M (option Z) := λ w, (Normal (res_statusCode w), w).

(** ** The connection and the statements, as the middleware issues them *)

Definition pool_connect (env : Env) : M unit :=
  or_reject (connect_error env);; emit PoolConnect.

Definition client_release : M unit := emit ClientRelease.

Definition console_error (label : string) : M unit := emit (ConsoleError label).

Definition client_query_check (env : Env) (key : string) : M (list Row) :=
  emit (Query SelectKey);;
  or_reject (check_error env);;
  t ← get_table;
  mret (Sql.checkQuery (now_check env) key t).

Definition client_query_insert (env : Env) (key : string) (req : Request) : M nat :=
  emit (Query InsertKey);;
  or_reject (insert_error env);;
  t ← get_table;
  let '(t', rows) := Sql.insertQuery (now_insert env) key (method req) (path req) (body req) t in
  put_table t';;
  mret rows.

Definition client_query_update (env : Env) (status : option Z) (payload : json)
    (key : string) : M unit :=
  emit (Query UpdateKey);;
  or_reject (update_error env);;
  t ← get_table;
  put_table (Sql.updateQuery (now_update env) status payload key t).

(** ** The response object *)

(** [res.status(code)] *)
Definition res_status (code : option Z) : M unit :=
  λ w, (Normal tt,
        {| idempotency_keys := idempotency_keys w;
           res_statusCode := code;
           res_json_method := res_json_method w;
           trace := trace w |}).

(** Express's [res.json]: the payload leaves with the current status code. *)
Definition originalJson (payload : json) : M unit :=
  status ← get_statusCode;
  emit (Sent status payload).

(** The function the middleware assigns to [res.json] (lines 85-108). *)
Definition patchedJson (env : Env) (idempotencyKey : string) (payload : json) : M unit :=
  try_catch_finally
    (status ← get_statusCode;
     client_query_update env status payload idempotencyKey)
    (λ error, console_error "Failed to cache response:")
    client_release;;
  originalJson payload.

(** [res.json = async function (body) {...}] *)
Definition patch_res_json (idempotencyKey : string) : M unit :=
  λ w, (Normal tt,
        {| idempotency_keys := idempotency_keys w;
           res_statusCode := res_statusCode w;
           res_json_method := PatchedJson idempotencyKey;
           trace := trace w |}).

(** A call [res.json(payload)]: whichever function the property holds now. *)
Definition res_json (env : Env) (payload : json) : M unit :=
  λ w, match res_json_method w with
       | OriginalJson => originalJson payload w
       | PatchedJson idempotencyKey => patchedJson env idempotencyKey payload w
       end.

(** ** The layers behind the middleware *)

(** What a route handler does with a request, as far as the response object
    is concerned. *)
Inductive HandlerBehaviour : Type :=
| Responds (status : Z) (payload : json)
    (* res.status(status).json(payload) *)
| Raises (message : string)
    (* an error that reaches Express (thrown, or given to next), which hands
       it to the error-handling middleware *)
| NoResponse.
    (* res.json is never called: the handler hangs, the process dies, or a
       rejection is handled by nobody *)

(** The payload of the error-handling middleware. *)
Definition internal_error (message : string) : json :=
  JObj [("error", JStr "Internal server error"); ("message", JStr message)].

(** The error-handling middleware (lines 265-271). *)
Definition errorHandler (env : Env) (message : string) : M unit :=
  console_error message;;
  res_status (Some 500);;
  res_json env (internal_error message).

(** Express's [next]: with an error, the error-handling middleware; without,
    the route handler. *)
Definition next (env : Env) (handler : Request → HandlerBehaviour) (req : Request)
    (err : option string) : M unit :=
  match err with
  | Some message => errorHandler env message
  | None =>
      emit HandlerInvoked;;
      match handler req with
      | Responds status payload => res_status (Some status);; res_json env payload
      | Raises message => errorHandler env message
      | NoResponse => mret tt
      end
  end.

(** ** The middleware *)

Definition conflict_payload : json :=
  JObj [("error", JStr "Request is already being processed")].

(** [!idempotencyKey] *)
Definition key_missing (k : option string) : bool :=
  match k with
  | None => true
  | Some s => String.eqb s ""
  end.

(** Lines 21-23: the test that sends a request past the layer. *)
Definition bypasses (req : Request) : bool :=
  key_missing (header_idempotency_key req) || String.eqb (method req) "GET".

(** Lines 38-52: what the rows of the check decide. *)
Inductive Cached : Type :=
| StillProcessing
| CachedResponse (status : option Z) (payload : json)
| NothingUsable.

Definition inspect (rows : list Row) : Cached :=
  match rows with
  | cached :: _ =>
      if is_processing (processing_status cached) then StillProcessing
      else match response_body cached with
           | Some payload =>
               if ToBoolean payload
               then CachedResponse (response_status cached) payload
               else NothingUsable
           | None => NothingUsable
           end
  | [] => NothingUsable
  end.

(** Lines 17-116. *)
Definition idempotencyMiddleware (env : Env) (req : Request)
    (next : option string → M unit) : M unit :=
  let idempotencyKey := default "" (header_idempotency_key req) in
  if bypasses req then next None
  else
    pool_connect env;;
    try_catch
      (result ← client_query_check env idempotencyKey;
       match inspect result with
       | StillProcessing =>
           res_status (Some 409);; res_json env conflict_payload
       | CachedResponse status payload =>
           res_status status;; res_json env payload
       | NothingUsable =>
           insertResult ← client_query_insert env idempotencyKey req;
           if Nat.eqb insertResult 0
           then res_status (Some 409);; res_json env conflict_payload
           else patch_res_json idempotencyKey;; next None
       end)
      (λ error,
         client_release;;
         console_error "Idempotency middleware error:";;
         next (Some error)).

(** One request through the application: a new response object (status 200,
    Express's [json]), then the middleware with Express's [next] behind it. *)
Definition new_response (t : Table) : World :=
  {| idempotency_keys := t;
     res_statusCode := Some 200;
     res_json_method := OriginalJson;
     trace := [] |}.

Definition app (env : Env) (handler : Request → HandlerBehaviour) (req : Request)
    (t : Table) : Completion unit * World :=
  idempotencyMiddleware env req (next env handler req) (new_response t).

Definition table_after (env : Env) (handler : Request → HandlerBehaviour)
    (req : Request) (t : Table) : Table :=
  idempotency_keys (app env handler req t).2.

Definition trace_of (env : Env) (handler : Request → HandlerBehaviour)
    (req : Request) (t : Table) : list Event :=
  trace (app env handler req t).2.

(** The world in which [next] is called after a successful insert. *)
Definition claimed_world (env : Env) (req : Request) (t : Table) (key : string)
    : World :=
  {| idempotency_keys :=
       <[key := Sql.fresh_row (now_insert env) (method req) (path req) (body req)]> t;
     res_statusCode := Some 200;
     res_json_method := PatchedJson key;
     trace := [PoolConnect; Query SelectKey; Query InsertKey] |}.

(** ** The clean-up job (lines 279-286) *)

Definition cleanupExpiredKeys (now : Z) (error : option string) (t : Table)
    : Table * list Event :=
  match error with
  | Some _ => (t, [Query DeleteExpired; ConsoleError "Cleanup error:"])
  | None =>
      let '(t', rowCount) := Sql.deleteQuery now t in
      (t', [Query DeleteExpired; ConsoleLogCleaned rowCount])
  end.

(** ** Reading a trace *)

Definition is_release (e : Event) : bool :=
  match e with ClientRelease => true | _ => false end.
Definition is_connect (e : Event) : bool :=
  match e with PoolConnect => true | _ => false end.
Definition is_query (e : Event) : bool :=
  match e with Query _ => true | _ => false end.
Definition is_handler (e : Event) : bool :=
  match e with HandlerInvoked => true | _ => false end.

Definition count (p : Event → bool) (tr : list Event) : nat :=
  length (List.filter p tr).

(** The responses that left, in order. *)
Fixpoint responses (tr : list Event) : list (option Z * json) :=
  match tr with
  | [] => []
  | Sent status payload :: tr' => (status, payload) :: responses tr'
  | _ :: tr' => responses tr'
  end.

Definition handler_runs (tr : list Event) : nat := count is_handler tr.
Definition releases (tr : list Event) : nat := count is_release tr.
Definition connects (tr : list Event) : nat := count is_connect tr.
Definition statements (tr : list Event) : nat := count is_query tr.

(** ** The claim protocol, one statement at a time

    Between its [await]s the middleware runs alone; the table is shared at
    the two statements of lines 36 and 69, each of which the database
    executes as one indivisible step (the unique index decides the insert).
    A caller is at the check, at the insert, or has its outcome; a schedule
    says which caller's next statement the database executes, and the value
    of [NOW()] it executes it at.  Only the statements of the claim are
    scheduled: no completion write and no sweep runs in between. *)

Module Claim.

Inductive Outcome : Type :=
| New                                          (* the insert returned a row *)
| Conflict                                     (* 409 *)
| Replay (status : option Z) (payload : json). (* the cached response *)

Inductive Caller : Type :=
| AtCheck
| AtInsert
| Finished (o : Outcome).

Definition step (now : Z) (key : string) (req : Request) (t : Table) (c : Caller)
    : Table * Caller :=
  match c with
  | AtCheck =>
      (t, match inspect (Sql.checkQuery now key t) with
          | StillProcessing => Finished Conflict
          | CachedResponse status payload => Finished (Replay status payload)
          | NothingUsable => AtInsert
          end)
  | AtInsert =>
      let '(t', rows) :=
        Sql.insertQuery now key (method req) (path req) (body req) t in
      (t', Finished (if Nat.eqb rows 0 then Conflict else New))
  | Finished o => (t, Finished o)
  end.

(** One caller alone: the check, then the insert if the check falls through. *)
Definition tryClaim (now_c now_i : Z) (key : string) (req : Request) (t : Table)
    : Table * Caller :=
  let '(t1, c1) := step now_c key req t AtCheck in
  step now_i key req t1 c1.

(** [reqs] are the callers' requests, all carrying [key]; [callers] are their
    positions.  An entry of the schedule naming no caller does nothing. *)
Definition schedule_step (key : string) (reqs : list Request)
    (s : Table * list Caller) (e : nat * Z) : Table * list Caller :=
  match s.2 !! e.1, reqs !! e.1 with
  | Some c, Some req =>
      let '(t', c') := step e.2 key req s.1 c in
      (t', <[e.1 := c']> s.2)
  | _, _ => s
  end.

Definition run (key : string) (reqs : list Request) (schedule : list (nat * Z))
    (s : Table * list Caller) : Table * list Caller :=
  foldl (schedule_step key reqs) s schedule.

Definition start (reqs : list Request) : list Caller :=
  replicate (length reqs) AtCheck.

Definition is_finished (c : Caller) : bool :=
  match c with Finished _ => true | _ => false end.
Definition is_new (c : Caller) : bool :=
  match c with Finished New => true | _ => false end.
Definition is_conflict (c : Caller) : bool :=
  match c with Finished Conflict => true | _ => false end.

Definition tally (p : Caller → bool) (cs : list Caller) : nat :=
  length (List.filter p cs).

Definition all_finished (cs : list Caller) : bool := forallb is_finished cs.

(** Nobody has inserted yet: the key has no row and no caller has an outcome. *)
Definition quiet (key : string) (s : Table * list Caller) : Prop :=
  s.1 !! key = None ∧ Forall (λ c, is_finished c = false) s.2.

(** Somebody has inserted: the key's row is ['processing'], one caller holds
    [New], and nobody holds a replay. *)
Definition claimed (key : string) (s : Table * list Caller) : Prop :=
  (∃ r, s.1 !! key = Some r ∧ processing_status r = processing) ∧
  tally is_new s.2 = 1%nat ∧
  Forall (λ c, c = AtCheck ∨ c = AtInsert ∨ c = Finished New ∨ c = Finished Conflict) s.2.

(** At most one [New], and a [New] only with a row in the table. *)
Definition at_most_one (key : string) (s : Table * list Caller) : Prop :=
  (tally is_new s.2 ≤ 1)%nat ∧ (tally is_new s.2 = 1%nat → is_Some (s.1 !! key)).

End Claim.

(** ** Predicates of the properties *)

(** A request the layer applies to, with the key it carries. *)
Definition guarded (req : Request) (key : string) : Prop :=
  header_idempotency_key req = Some key ∧ bypasses req = false.

(** The connection is obtained and the two statements of the claim go
    through. *)
Definition claim_succeeds (env : Env) : Prop :=
  connect_error env = None ∧ check_error env = None ∧ insert_error env = None.



(** The tables the three mutations build from the empty one.  The status
    bound to the [UPDATE] is [res.statusCode], a number. *)
Inductive reachable : Table → Prop :=
| reach_empty : reachable ∅
| reach_insert now key method path body t :
    reachable t →
    reachable (Sql.insertQuery now key method path body t).1
| reach_update now (status : Z) payload key t :
    reachable t →
    reachable (Sql.updateQuery now (Some status) payload key t)
| reach_delete now t :
    reachable t →
    reachable (Sql.deleteQuery now t).1.


(** The methods that only read (RFC 9110, safe methods). *)
Definition read_only_method (m : string) : bool :=
  String.eqb m "GET" || String.eqb m "HEAD" || String.eqb m "OPTIONS"
  || String.eqb m "TRACE".

(** ** Concrete requests, handlers and environments *)

Module Scenario.

(** Every statement of the request runs at [now] and nothing fails. *)
Definition at_time (now : Z) : Env :=
  {| now_check := now; now_insert := now; now_update := now;
     connect_error := None; check_error := None;
     insert_error := None; update_error := None |}.

(** As [at_time], but the [UPDATE] is rejected. *)
Definition update_fails_at (now : Z) : Env :=
  {| now_check := now; now_insert := now; now_update := now;
     connect_error := None; check_error := None;
     insert_error := None; update_error := Some "connection terminated" |}.

Definition payment : json :=
  JObj [("userId", JNum 1); ("amount", JNum 50);
        ("description", JStr "Coffee subscription 123")].

Definition other_payment : json :=
  JObj [("userId", JNum 2); ("amount", JNum 7)].

Definition post (key : string) (payload : json) : Request :=
  {| header_idempotency_key := Some key; method := "POST";
     path := "/api/payment"; body := payload |}.

Definition head_health (key : string) : Request :=
  {| header_idempotency_key := Some key; method := "HEAD";
     path := "/health"; body := JObj [] |}.

Definition created : Request → HandlerBehaviour :=
  λ _, Responds 201 (JObj [("id", JNum 1)]).

Definition answers_false : Request → HandlerBehaviour :=
  λ _, Responds 200 (JBool false).


Definition hangs : Request → HandlerBehaviour :=
  λ _, NoResponse.

(** A row created at time 0 and never completed. *)
Definition stale_row : Row := Sql.fresh_row 0 "POST" "/api/payment" payment.

(** A completed row whose response columns were never written. *)
Definition hollow_row : Row :=
  {| request_method := "POST"; request_path := "/api/payment";
     request_body := Some payment;
     response_status := None; response_body := None;
     processing_status := completed;
     created_at := 0; updated_at := 0; expires_at := INTERVAL_24_HOURS |}.

(** Five callers with the same key, and a schedule that lets all of them
    check before any of them inserts. *)
Definition five : list Request := replicate 5 (post "K2" payment).

Definition checks_then_inserts (now : Z) : list (nat * Z) :=
  [(0%nat, now); (1%nat, now); (2%nat, now); (3%nat, now); (4%nat, now);
   (3%nat, now); (0%nat, now); (4%nat, now); (1%nat, now); (2%nat, now)].

End Scenario.

(** ** The ways through the application

    Every request leaves the application by one of these ways, each with the
    completion and the world it ends in. *)

(** The two ways a response reaches [res.json] behind a claim: from the
    handler, or from the error-handling middleware, which logs first. *)
Definition answered_by (b : HandlerBehaviour) (status : Z) (payload : json)
    (logged : list Event) : Prop :=
  b = Responds status payload ∧ logged = []
  ∨ ∃ message, b = Raises message ∧ status = 500 ∧
               payload = internal_error message ∧
               logged = [ConsoleError message].

Inductive Way (env : Env) (handler : Request → HandlerBehaviour) (req : Request)
    (t : Table) : Completion unit * World → Prop :=
| way_bypass_responds status payload :
    bypasses req = true →
    handler req = Responds status payload →
    Way env handler req t
      (Normal tt,
       {| idempotency_keys := t; res_statusCode := Some status;
          res_json_method := OriginalJson;
          trace := [HandlerInvoked; Sent (Some status) payload] |})
| way_bypass_raises message :
    bypasses req = true →
    handler req = Raises message →
    Way env handler req t
      (Normal tt,
       {| idempotency_keys := t; res_statusCode := Some 500;
          res_json_method := OriginalJson;
          trace := [HandlerInvoked; ConsoleError message;
                    Sent (Some 500) (internal_error message)] |})
| way_bypass_silent :
    bypasses req = true →
    handler req = NoResponse →
    Way env handler req t
      (Normal tt,
       {| idempotency_keys := t; res_statusCode := Some 200;
          res_json_method := OriginalJson;
          trace := [HandlerInvoked] |})
| way_connect_rejected key message :
    guarded req key →
    connect_error env = Some message →
    Way env handler req t (Throw message, new_response t)
| way_statement_rejected key message sent :
    guarded req key →
    connect_error env = None →
    sent = [Query SelectKey] ∧ check_error env = Some message
    ∨ sent = [Query SelectKey; Query InsertKey] ∧ insert_error env = Some message →
    Way env handler req t
      (Normal tt,
       {| idempotency_keys := t; res_statusCode := Some 500;
          res_json_method := OriginalJson;
          trace := PoolConnect :: sent ++
                   [ClientRelease; ConsoleError "Idempotency middleware error:";
                    ConsoleError message;
                    Sent (Some 500) (internal_error message)] |})
| way_answered_early key status payload sent :
    guarded req key →
    connect_error env = None →
    is_Some (t !! key) →
    sent = [Query SelectKey] ∨ sent = [Query SelectKey; Query InsertKey] →
    Way env handler req t
      (Normal tt,
       {| idempotency_keys := t; res_statusCode := status;
          res_json_method := OriginalJson;
          trace := PoolConnect :: sent ++ [Sent status payload] |})
| way_claimed_silent key :
    guarded req key → claim_succeeds env →
    t !! key = None →
    handler req = NoResponse →
    Way env handler req t
      (Normal tt,
       {| idempotency_keys := idempotency_keys (claimed_world env req t key);
          res_statusCode := Some 200;
          res_json_method := PatchedJson key;
          trace := [PoolConnect; Query SelectKey; Query InsertKey;
                    HandlerInvoked] |})
| way_claimed_stored key status payload logged :
    guarded req key → claim_succeeds env →
    t !! key = None →
    update_error env = None →
    answered_by (handler req) status payload logged →
    Way env handler req t
      (Normal tt,
       {| idempotency_keys :=
            Sql.updateQuery (now_update env) (Some status) payload key
              (idempotency_keys (claimed_world env req t key));
          res_statusCode := Some status;
          res_json_method := PatchedJson key;
          trace := [PoolConnect; Query SelectKey; Query InsertKey; HandlerInvoked]
                   ++ logged
                   ++ [Query UpdateKey; ClientRelease; Sent (Some status) payload] |})
| way_claimed_unstored key status payload logged e :
    guarded req key → claim_succeeds env →
    t !! key = None →
    update_error env = Some e →
    answered_by (handler req) status payload logged →
    Way env handler req t
      (Normal tt,
       {| idempotency_keys := idempotency_keys (claimed_world env req t key);
          res_statusCode := Some status;
          res_json_method := PatchedJson key;
          trace := [PoolConnect; Query SelectKey; Query InsertKey; HandlerInvoked]
                   ++ logged
                   ++ [Query UpdateKey; ConsoleError "Failed to cache response:";
                       ClientRelease; Sent (Some status) payload] |}).

(** ** Requests one after another *)

Module Serve.

(** A route handler with tables of its own: what it makes of them on a
    request, and how it answers. *)
Definition Service (B : Type) : Type := B → Request → B * HandlerBehaviour.

(** One request to a service behind the middleware.  The service's tables
    change just when the handler was entered. *)
Definition serve {B : Type} (service : Service B) (s : B * Table)
    (call : Env * Request) : (B * Table) * list Event :=
  let after := service s.1 call.2 in
  let w := (app call.1 (λ _, after.2) call.2 s.2).2 in
  ((if Nat.eqb (handler_runs (trace w)) 0 then s.1 else after.1,
    idempotency_keys w),
   trace w).

(** Requests served one after another, with the trace of each. *)
Fixpoint serve_all {B : Type} (service : Service B) (s : B * Table)
    (calls : list (Env * Request)) : (B * Table) * list (list Event) :=
  match calls with
  | [] => (s, [])
  | call :: rest =>
      let r := serve service s call in
      let rs := serve_all service r.1 rest in
      (rs.1, r.2 :: rs.2)
  end.

(** How often the handler was entered over all the requests. *)
Definition total_runs (traces : list (list Event)) : nat :=
  foldr (λ tr n, (handler_runs tr + n)%nat) 0%nat traces.


End Serve.

(** ** Schedules that give every caller its turns *)

Module Fair.

(** The statements a caller still has to run. *)
Definition steps_left (c : Claim.Caller) : nat :=
  match c with
  | Claim.AtCheck => 2
  | Claim.AtInsert => 1
  | Claim.Finished _ => 0
  end.

(** How often the schedule names caller [i]. *)
Definition turns (i : nat) (schedule : list (nat * Z)) : nat :=
  length (List.filter (λ e : nat * Z, Nat.eqb e.1 i) schedule).

(** Each of the [n] callers is named at least twice. *)
Definition fair (n : nat) (schedule : list (nat * Z)) : Prop :=
  ∀ i, (i < n)%nat → (2 ≤ turns i schedule)%nat.

End Fair.

(** ** The route handlers (lines 122-262)

    The business tables are not modelled: what the database answers to each
    statement of a handler is given by the environment.  What is modelled is
    the handler's control: which statements it sends, with which parameters
    and in which order, what it answers, and what it does with its
    connection. *)

Module Shop.

(** The statements of the two handlers with their bound parameters; [None]
    is [undefined] or [null], which the driver binds as NULL. *)
Inductive Statement : Type :=
| Begin
| Commit
| Rollback
| InsertPayment (payment_id : string) (user_id amount description : option json)
    (status : string)
| UpdateBalance (amount user_id : option json)
| InsertOrder (order_id : string) (user_id total_amount : option json)
    (status : string)
| InsertOrderItem (order_id : string) (product_id quantity price : option json).

Inductive Event : Type :=
| Connect                          (* pool.connect() resolved *)
| Release                          (* client.release() *)
| Query (s : Statement)            (* client.query(...) was sent *)
| ConsoleError (label : string).   (* console.error(label, error) *)

(** What a handler has done so far: its events, and its calls of
    [res.status(code).json(payload)]. *)
Record Run : Type := mkRun {
  events : list Event;
  answers : list (Z * json)
}.

Definition T (A : Type) : Type := Run → Completion A * Run.

#[export] Instance T_ret : MRet T := λ A a r, (Normal a, r).

#[export] Instance T_bind : MBind T := λ A B k m r,
  match m r with
  | (Normal a, r') => k a r'
  | (Throw e, r') => (Throw e, r')
  end.

Definition throw {A : Type} (message : string) : T A := λ r, (Throw message, r).

(** [try { body } catch (error) { handler error } finally { final }] *)
Definition try_catch_finally (body : T unit) (handler : string → T unit)
    (final : T unit) : T unit :=
  λ r,
    let caught :=
      match body r with
      | (Normal a, r') => (Normal a, r')
      | (Throw e, r') => handler e r'
      end in
    match caught with
    | (Normal _, r') => final r'
    | (Throw e, r') =>
        match final r' with
        | (Normal _, r'') => (Throw e, r'')
        | (Throw e', r'') => (Throw e', r'')
        end
    end.

Definition emit (e : Event) : T unit :=
  λ r, (Normal tt, {| events := events r ++ [e]; answers := answers r |}).

(** [res.status(code).json(payload)] *)
Definition respond (code : Z) (payload : json) : T unit :=
  λ r, (Normal tt, {| events := events r; answers := answers r ++ [(code, payload)] |}).

(** [await pool.connect()] *)
Definition connect (rejection : option string) : T unit :=
  match rejection with
  | Some message => throw message
  | None => emit Connect
  end.

(** [await client.query(...)] for a statement whose rows are not read. *)
Definition query (s : Statement) (rejection : option string) : T unit :=
  emit (Query s);;
  match rejection with
  | Some message => throw message
  | None => mret tt
  end.

(** [await client.query(...)] for a statement whose rows are read. *)
Definition query_returning {A : Type} (s : Statement) (result : string + A) : T A :=
  emit (Query s);;
  match result with
  | inl message => throw message
  | inr rows => mret rows
  end.

(** ** Reading the request body *)

(** [v.name] for a JSON value that is not [null]: the last binding of an
    object (as [JSON.parse] keeps it), [undefined] otherwise. *)
Fixpoint lookup_field (name : string) (fields : list (string * json)) : option json :=
  match fields with
  | [] => None
  | (k, v) :: rest =>
      match lookup_field name rest with
      | Some v' => Some v'
      | None => if String.eqb k name then Some v else None
      end
  end.

Definition property (name : string) (v : json) : option json :=
  match v with
  | JObj fields => lookup_field name fields
  | _ => None
  end.

(** Reading a property of [null] throws a TypeError, with the message the
    engine gives it. *)
Definition readable (message : string) (v : json) : T unit :=
  match v with
  | JNull => throw message
  | _ => mret tt
  end.

(** Truthiness of a value that may be [undefined]. *)
Definition truthy (v : option json) : bool :=
  match v with
  | Some j => ToBoolean j
  | None => false
  end.

(** [v || null] *)
Definition or_null (v : option json) : option json :=
  if truthy v then v else None.

(** ** [POST /api/payment] (lines 122-193) *)

Record PaymentDb : Type := mkPaymentDb {
  payment_uuid : string;                       (* uuidv4() *)
  payment_connect : option string;             (* rejection of pool.connect() *)
  payment_begin : option string;               (* rejection of BEGIN *)
  payment_insert : string + json;              (* rejection, or rows[0] *)
  payment_balance : string + list json;        (* rejection, or the balance of each row *)
  payment_commit : option string;
  payment_rollback : option string
}.

Definition payment_invalid : json :=
  JObj [("error", JStr "Amount and userId are required")].

Definition payment_success (payment balance : json) : json :=
  JObj [("success", JBool true); ("payment", payment); ("remainingBalance", balance)].

Definition payment_failure (message : string) : json :=
  JObj [("error", JStr "Payment processing failed"); ("message", JStr message)].

Definition paymentHandler (db : PaymentDb) (req : Request) : T unit :=
  readable "Cannot destructure property 'amount' of 'req.body' as it is null."
    (body req);;
  let amount := property "amount" (body req) in
  let userId := property "userId" (body req) in
  let description := property "description" (body req) in
  if negb (truthy amount) || negb (truthy userId)
  then respond 400 payment_invalid
  else
    connect (payment_connect db);;
    try_catch_finally
      (query Begin (payment_begin db);;
       paymentResult ← query_returning
         (InsertPayment (payment_uuid db) userId amount (or_null description) "completed")
         (payment_insert db);
       balanceResult ← query_returning (UpdateBalance amount userId) (payment_balance db);
       match balanceResult with
       | [] => throw "User not found"
       | balance :: _ =>
           query Commit (payment_commit db);;
           respond 201 (payment_success paymentResult balance)
       end)
      (λ error,
         query Rollback (payment_rollback db);;
         emit (ConsoleError "Payment error:");;
         respond 500 (payment_failure error))
      (emit Release).

(** ** [POST /api/orders] (lines 196-257) *)

Record OrderDb : Type := mkOrderDb {
  order_uuid : string;
  order_connect : option string;
  order_begin : option string;
  order_insert : string + json;                (* rejection, or rows[0] *)
  order_item : nat → option string;            (* rejection of the insert of item k *)
  order_commit : option string;
  order_rollback : option string
}.

Definition order_invalid : json :=
  JObj [("error", JStr "userId, items, and totalAmount are required")].

Definition order_success (order : json) : json :=
  JObj [("success", JBool true); ("order", order)].

Definition order_failure (message : string) : json :=
  JObj [("error", JStr "Order creation failed"); ("message", JStr message)].

(** The one-character strings of a string (one per character of the model's
    strings; the engine goes by code point). *)
Fixpoint characters (s : string) : list json :=
  match s with
  | EmptyString => []
  | String a rest => JStr (String a EmptyString) :: characters rest
  end.

(** What [for (const item of items)] runs over: the elements of an array,
    the characters of a string; anything else is not iterable. *)
Definition iterate (items : option json) : T (list json) :=
  match items with
  | Some (JArr elements) => mret elements
  | Some (JStr s) => mret (characters s)
  | _ => throw "items is not iterable"
  end.

(** The elements [iterate] yields, if any. *)
Definition elements_of (items : option json) : option (list json) :=
  match items with
  | Some (JArr elements) => Some elements
  | Some (JStr s) => Some (characters s)
  | _ => None
  end.

Definition item_statement (orderId : string) (item : json) : Statement :=
  InsertOrderItem orderId (property "productId" item) (property "quantity" item)
    (property "price" item).

(** The body of the loop, for the items from the [k]-th on. *)
Fixpoint insert_items (db : OrderDb) (orderId : string) (k : nat) (items : list json)
    : T unit :=
  match items with
  | [] => mret tt
  | item :: rest =>
      readable "Cannot read properties of null (reading 'productId')" item;;
      query (item_statement orderId item) (order_item db k);;
      insert_items db orderId (S k) rest
  end.

Definition orderHandler (db : OrderDb) (req : Request) : T unit :=
  readable "Cannot destructure property 'userId' of 'req.body' as it is null."
    (body req);;
  let userId := property "userId" (body req) in
  let items := property "items" (body req) in
  let totalAmount := property "totalAmount" (body req) in
  if negb (truthy userId) || negb (truthy items) || negb (truthy totalAmount)
  then respond 400 order_invalid
  else
    connect (order_connect db);;
    try_catch_finally
      (query Begin (order_begin db);;
       orderResult ← query_returning
         (InsertOrder (order_uuid db) userId totalAmount "pending")
         (order_insert db);
       elements ← iterate items;
       insert_items db (order_uuid db) 0 elements;;
       query Commit (order_commit db);;
       respond 201 (order_success orderResult))
      (λ error,
         query Rollback (order_rollback db);;
         emit (ConsoleError "Order creation error:");;
         respond 500 (order_failure error))
      (emit Release).

(** ** Running a handler *)

Definition fresh : Run := {| events := []; answers := [] |}.

Definition run_of (handler : T unit) : Run := (handler fresh).2.

Definition completion_of (handler : T unit) : Completion unit := (handler fresh).1.

(** The statements sent, in order. *)
Fixpoint statements_of (evs : list Event) : list Statement :=
  match evs with
  | [] => []
  | Query s :: rest => s :: statements_of rest
  | _ :: rest => statements_of rest
  end.

Definition is_connect (e : Event) : bool :=
  match e with Connect => true | _ => false end.
Definition is_release (e : Event) : bool :=
  match e with Release => true | _ => false end.

Definition occurrences (p : Event → bool) (evs : list Event) : nat :=
  length (List.filter p evs).

Definition is_item (s : Statement) : bool :=
  match s with InsertOrderItem _ _ _ _ => true | _ => false end.
Definition is_commit (s : Statement) : bool :=
  match s with Commit => true | _ => false end.
Definition is_rollback (s : Statement) : bool :=
  match s with Rollback => true | _ => false end.

(** What the loop over the items from the [k]-th on sends, and the error it
    ends with, if any. *)
Fixpoint items_outcome (db : OrderDb) (orderId : string) (k : nat) (items : list json)
    : list Statement * option string :=
  match items with
  | [] => ([], None)
  | JNull :: _ => ([], Some "Cannot read properties of null (reading 'productId')")
  | item :: rest =>
      match order_item db k with
      | Some message => ([item_statement orderId item], Some message)
      | None =>
          let r := items_outcome db orderId (S k) rest in
          (item_statement orderId item :: r.1, r.2)
      end
  end.


End Shop.

(** ** Further concrete inputs *)

Module Example.

(** A service that counts how often it ran and answers with the count. *)
Definition counter : Serve.Service nat :=
  λ n _, (S n, Responds 201 (JObj [("count", JNum (Z.of_nat n))])).

(** Three requests with the same key, every one with another body, the
    second while the table cannot be reached. *)
Definition three_calls : list (Env * Request) :=
  [(Scenario.at_time 0, Scenario.post "K1" Scenario.payment);
   ({| now_check := 5; now_insert := 5; now_update := 5;
       connect_error := None; check_error := Some "connection refused";
       insert_error := None; update_error := None |},
    Scenario.post "K1" Scenario.other_payment);
   (Scenario.at_time 9, Scenario.post "K1" (JObj []))].

(** A completed row with a stored response. *)
Definition done_row : Row :=
  Sql.set_response 3 (Some 201) (JObj [("id", JNum 1)]) Scenario.stale_row.

Definition get_health : Request :=
  {| header_idempotency_key := Some "K9"; method := "GET";
     path := "/health"; body := JObj [] |}.

(** A database that accepts every statement of a payment and returns one
    row for the user. *)
Definition payment_db : Shop.PaymentDb :=
  {| Shop.payment_uuid := "6f1c7a0e-0000-4000-8000-000000000001";
     Shop.payment_connect := None; Shop.payment_begin := None;
     Shop.payment_insert := inr (JObj [("id", JNum 1)]);
     Shop.payment_balance := inr [JNum 950];
     Shop.payment_commit := None; Shop.payment_rollback := None |}.

(** As [payment_db], but the UPDATE finds no user. *)
Definition unknown_user_db : Shop.PaymentDb :=
  {| Shop.payment_uuid := "6f1c7a0e-0000-4000-8000-000000000001";
     Shop.payment_connect := None; Shop.payment_begin := None;
     Shop.payment_insert := inr (JObj [("id", JNum 1)]);
     Shop.payment_balance := inr [];
     Shop.payment_commit := None; Shop.payment_rollback := None |}.

(** A payment of amount 0. *)
Definition zero_payment : json := JObj [("userId", JNum 1); ("amount", JNum 0)].

(** A database that accepts every statement of an order but the insert of
    the second item. *)
Definition order_db : Shop.OrderDb :=
  {| Shop.order_uuid := "6f1c7a0e-0000-4000-8000-000000000002";
     Shop.order_connect := None; Shop.order_begin := None;
     Shop.order_insert := inr (JObj [("id", JNum 1)]);
     Shop.order_item := λ k, if Nat.eqb k 1 then Some "null value in column" else None;
     Shop.order_commit := None; Shop.order_rollback := None |}.

Definition item (product : Z) : json :=
  JObj [("productId", JNum product); ("quantity", JNum 1); ("price", JNum 30)].

Definition order (items : json) : Request :=
  {| header_idempotency_key := Some "K5"; method := "POST"; path := "/api/orders";
     body := JObj [("userId", JNum 2); ("items", items); ("totalAmount", JNum 110)] |}.

Definition check_fails_at (now : Z) : Env :=
  {| now_check := now; now_insert := now; now_update := now;
     connect_error := None; check_error := Some "connection refused";
     insert_error := None; update_error := None |}.

End Example.

(** * Proofs *)

(** ** Running the monad *)

Ltac unfold_m :=
  unfold table_after, trace_of, claimed_world, app, idempotencyMiddleware, next,
    errorHandler,
    internal_error, patchedJson, res_json, originalJson, try_catch_finally, try_catch,
    pool_connect, client_release, console_error, client_query_check,
    client_query_insert, client_query_update, res_status, patch_res_json,
    get_statusCode, emit, get_table, put_table, or_reject, throw,
    mbind, mret, M_bind, M_ret, new_response in *.

Section Paths.

Variable env : Env.
Variable handler : Request → HandlerBehaviour.
Variable req : Request.
Variable t : Table.

Lemma app_bypass :
  bypasses req = true →
  app env handler req t = next env handler req None (new_response t).
Proof. intros Hb. unfold app, idempotencyMiddleware. by rewrite Hb. Qed.

Lemma app_connect_rejected key message :
  guarded req key →
  connect_error env = Some message →
  app env handler req t = (Throw message, new_response t).
Proof.
  intros [Hk Hb] Hc. unfold_m. rewrite Hb, Hc. reflexivity.
Qed.

Lemma app_still_processing key :
  guarded req key → claim_succeeds env →
  inspect (Sql.checkQuery (now_check env) key t) = StillProcessing →
  app env handler req t =
    (Normal tt,
     {| idempotency_keys := t;
        res_statusCode := Some 409;
        res_json_method := OriginalJson;
        trace := [PoolConnect; Query SelectKey;
                  Sent (Some 409) conflict_payload] |}).
Proof.
  intros [Hk Hb] (Hc & Hch & Hi) Hin. unfold_m.
  rewrite Hb, Hk, Hc, Hch. cbn. rewrite Hin. reflexivity.
Qed.

Lemma app_cached key status payload :
  guarded req key → claim_succeeds env →
  inspect (Sql.checkQuery (now_check env) key t) = CachedResponse status payload →
  app env handler req t =
    (Normal tt,
     {| idempotency_keys := t;
        res_statusCode := status;
        res_json_method := OriginalJson;
        trace := [PoolConnect; Query SelectKey; Sent status payload] |}).
Proof.
  intros [Hk Hb] (Hc & Hch & Hi) Hin. unfold_m.
  rewrite Hb, Hk, Hc, Hch. cbn. rewrite Hin. reflexivity.
Qed.

Lemma app_insert_conflict key :
  guarded req key → claim_succeeds env →
  inspect (Sql.checkQuery (now_check env) key t) = NothingUsable →
  is_Some (t !! key) →
  app env handler req t =
    (Normal tt,
     {| idempotency_keys := t;
        res_statusCode := Some 409;
        res_json_method := OriginalJson;
        trace := [PoolConnect; Query SelectKey; Query InsertKey;
                  Sent (Some 409) conflict_payload] |}).
Proof.
  intros [Hk Hb] (Hc & Hch & Hi) Hin [r Hr]. unfold_m.
  rewrite Hb, Hk, Hc, Hch. cbn. rewrite Hin, Hi. cbn.
  unfold Sql.insertQuery. rewrite Hr. reflexivity.
Qed.

Lemma app_new key :
  guarded req key → claim_succeeds env →
  t !! key = None →
  app env handler req t = next env handler req None (claimed_world env req t key).
Proof.
  intros [Hk Hb] (Hc & Hch & Hi) Hn. unfold_m.
  rewrite Hb, Hk, Hc, Hch. cbn.
  unfold Sql.checkQuery. rewrite Hn. cbn. rewrite Hi. cbn.
  unfold Sql.insertQuery. rewrite Hn. cbn.
  destruct (handler req); unfold_m; cbn; destruct (update_error env); reflexivity.
Qed.

Lemma app_check_rejected key message :
  guarded req key →
  connect_error env = None →
  check_error env = Some message →
  app env handler req t =
    (Normal tt,
     {| idempotency_keys := t;
        res_statusCode := Some 500;
        res_json_method := OriginalJson;
        trace := [PoolConnect; Query SelectKey; ClientRelease;
                  ConsoleError "Idempotency middleware error:";
                  ConsoleError message;
                  Sent (Some 500)
                    (internal_error message)] |}).
Proof.
  intros [Hk Hb] Hc Hch. unfold_m.
  rewrite Hb, Hk, Hc, Hch. reflexivity.
Qed.

Lemma app_insert_rejected key message :
  guarded req key →
  connect_error env = None →
  check_error env = None →
  inspect (Sql.checkQuery (now_check env) key t) = NothingUsable →
  insert_error env = Some message →
  app env handler req t =
    (Normal tt,
     {| idempotency_keys := t;
        res_statusCode := Some 500;
        res_json_method := OriginalJson;
        trace := [PoolConnect; Query SelectKey; Query InsertKey;
                  ClientRelease;
                  ConsoleError "Idempotency middleware error:";
                  ConsoleError message;
                  Sent (Some 500)
                    (internal_error message)] |}).
Proof.
  intros [Hk Hb] Hc Hch Hin Hi. unfold_m.
  rewrite Hb, Hk, Hc, Hch. cbn. rewrite Hin, Hi. reflexivity.
Qed.

(** Behind a successful claim: what each behaviour of the handler leaves. *)

Lemma next_responds_stored key status payload :
  handler req = Responds status payload →
  update_error env = None →
  next env handler req None (claimed_world env req t key) =
    (Normal tt,
     {| idempotency_keys :=
          Sql.updateQuery (now_update env) (Some status) payload key
            (idempotency_keys (claimed_world env req t key));
        res_statusCode := Some status;
        res_json_method := PatchedJson key;
        trace := [PoolConnect; Query SelectKey; Query InsertKey;
                  HandlerInvoked; Query UpdateKey; ClientRelease;
                  Sent (Some status) payload] |}).
Proof.
  intros Hh Hu. unfold_m. rewrite Hh. cbn. unfold_m. cbn. rewrite Hu. reflexivity.
Qed.

Lemma next_responds_unstored key status payload message :
  handler req = Responds status payload →
  update_error env = Some message →
  next env handler req None (claimed_world env req t key) =
    (Normal tt,
     {| idempotency_keys := idempotency_keys (claimed_world env req t key);
        res_statusCode := Some status;
        res_json_method := PatchedJson key;
        trace := [PoolConnect; Query SelectKey; Query InsertKey;
                  HandlerInvoked; Query UpdateKey;
                  ConsoleError "Failed to cache response:"; ClientRelease;
                  Sent (Some status) payload] |}).
Proof.
  intros Hh Hu. unfold_m. rewrite Hh. cbn. unfold_m. cbn. rewrite Hu. reflexivity.
Qed.

Lemma next_raises_stored key message :
  handler req = Raises message →
  update_error env = None →
  next env handler req None (claimed_world env req t key) =
    (Normal tt,
     {| idempotency_keys :=
          Sql.updateQuery (now_update env) (Some 500)
            (internal_error message) key
            (idempotency_keys (claimed_world env req t key));
        res_statusCode := Some 500;
        res_json_method := PatchedJson key;
        trace := [PoolConnect; Query SelectKey; Query InsertKey;
                  HandlerInvoked; ConsoleError message; Query UpdateKey;
                  ClientRelease;
                  Sent (Some 500)
                    (internal_error message)] |}).
Proof.
  intros Hh Hu. unfold_m. rewrite Hh. cbn. unfold_m. cbn. rewrite Hu. reflexivity.
Qed.

Lemma next_no_response key :
  handler req = NoResponse →
  next env handler req None (claimed_world env req t key) =
    (Normal tt,
     {| idempotency_keys := idempotency_keys (claimed_world env req t key);
        res_statusCode := Some 200;
        res_json_method := PatchedJson key;
        trace := [PoolConnect; Query SelectKey; Query InsertKey;
                  HandlerInvoked] |}).
Proof. intros Hh. unfold_m. rewrite Hh. reflexivity. Qed.

End Paths.

(** ** The claim protocol under interleaving *)

Module ClaimFacts.
Import Claim.

Lemma tally_insert p (cs : list Caller) i c c' :
  cs !! i = Some c →
  (tally p (<[i:=c']> cs) + (if p c then 1 else 0) =
   tally p cs + (if p c' then 1 else 0))%nat.
Proof.
  unfold tally. revert i. induction cs as [|x cs IH]; intros [|i] H; try done.
  - simpl in H. injection H as ->. simpl. destruct (p c), (p c'); simpl; lia.
  - simpl in H. specialize (IH i H). simpl. destruct (p x), (p c), (p c'); simpl in *; lia.
Qed.

Lemma tally_unfinished p (cs : list Caller) :
  (∀ c, p c = true → is_finished c = true) →
  Forall (λ c, is_finished c = false) cs → tally p cs = 0%nat.
Proof.
  intros Hp. unfold tally. induction 1 as [|c cs Hc _ IH]; [done|].
  simpl. destruct (p c) eqn:E; [|done]. apply Hp in E. congruence.
Qed.

Lemma inspect_processing r :
  processing_status r = processing → inspect [r] = StillProcessing.
Proof. intros H. unfold inspect. by rewrite H. Qed.

Lemma step_quiet key reqs s e :
  quiet key s → quiet key (schedule_step key reqs s e) ∨ claimed key (schedule_step key reqs s e).
Proof.
  destruct s as [t cs], e as [i now]. intros [Hn Hall]. simpl in *.
  unfold schedule_step. simpl.
  destruct (cs !! i) as [c|] eqn:Hc; [|by left].
  destruct (reqs !! i) as [req|] eqn:Hr; [|by left].
  pose proof (Forall_lookup_1 _ _ _ _ Hall Hc) as Hu. simpl in Hu.
  destruct c as [| |o]; [| |done].
  - left. simpl. unfold Sql.checkQuery. rewrite Hn. simpl. split; [done|].
    by apply Forall_insert.
  - right. simpl. unfold Sql.insertQuery. rewrite Hn. simpl. split; [|split].
    + eexists. split; [apply lookup_insert_eq|done].
    + pose proof (tally_insert is_new cs i AtInsert (Finished New) Hc) as Ht.
      rewrite (tally_unfinished is_new cs) in Ht; [simpl in *; lia| |done].
      by intros [| |[]].
    + apply Forall_insert; [|by auto].
      eapply Forall_impl; [exact Hall|]. intros [| |o]; simpl; auto. done.
Qed.

Lemma step_claimed key reqs s e :
  claimed key s → claimed key (schedule_step key reqs s e).
Proof.
  destruct s as [t cs], e as [i now]. intros ([r [Hr Hp]] & Hone & Hall).
  simpl in *. unfold schedule_step, claimed. simpl.
  destruct (cs !! i) as [c|] eqn:Hc; [|by eauto].
  destruct (reqs !! i) as [req|] eqn:Hq; [|by eauto].
  pose proof (Forall_lookup_1 _ _ _ _ Hall Hc) as Hu. simpl in Hu.
  pose proof (tally_insert is_new cs i c) as Ht.
  destruct Hu as [-> | [-> | [-> | ->]]]; simpl.
  - unfold Sql.checkQuery. rewrite Hr. case_bool_decide.
    + rewrite inspect_processing by done. simpl.
      specialize (Ht (Finished Conflict) Hc). simpl in Ht.
      split; [by eauto|]. split; [lia|]. apply Forall_insert; auto.
    + simpl. specialize (Ht AtInsert Hc). simpl in Ht.
      split; [by eauto|]. split; [lia|]. apply Forall_insert; auto.
  - unfold Sql.insertQuery. rewrite Hr. simpl.
    specialize (Ht (Finished Conflict) Hc). simpl in Ht.
    split; [by eauto|]. split; [lia|]. apply Forall_insert; auto.
  - rewrite list_insert_id by done. eauto.
  - rewrite list_insert_id by done. eauto.
Qed.

Lemma run_claimed key reqs schedule s :
  claimed key s → claimed key (run key reqs schedule s).
Proof.
  unfold run. revert s. induction schedule as [|e sch IH]; intros s H; [done|].
  simpl. apply IH. by apply step_claimed.
Qed.

Lemma run_quiet key reqs schedule s :
  quiet key s → quiet key (run key reqs schedule s) ∨ claimed key (run key reqs schedule s).
Proof.
  unfold run. revert s. induction schedule as [|e sch IH]; intros s H; [by left|].
  simpl. destruct (step_quiet key reqs s e H) as [Hq|Hc].
  - by apply IH.
  - right. by apply (run_claimed key reqs sch).
Qed.

Lemma schedule_step_length key reqs s e :
  length (schedule_step key reqs s e).2 = length s.2.
Proof.
  unfold schedule_step. destruct (s.2 !! e.1); [|done]. destruct (reqs !! e.1); [|done].
  destruct (step e.2 key r s.1 c). simpl. apply length_insert.
Qed.

Lemma run_length key reqs schedule s :
  length (run key reqs schedule s).2 = length s.2.
Proof.
  unfold run. revert s. induction schedule as [|e sch IH]; intros s; [done|].
  simpl. rewrite IH. apply schedule_step_length.
Qed.

Lemma tally_new_conflict (cs : list Caller) :
  all_finished cs = true →
  Forall (λ c, c = AtCheck ∨ c = AtInsert ∨ c = Finished New ∨ c = Finished Conflict) cs →
  (tally is_new cs + tally is_conflict cs = length cs)%nat.
Proof.
  unfold tally, all_finished. induction 2 as [|c cs Hc _ IH]; [done|].
  simpl in H. apply andb_prop in H as [Hf Hrest]. specialize (IH Hrest).
  destruct Hc as [-> | [-> | [-> | ->]]]; simpl in *; try done; lia.
Qed.

(** Mutual exclusion on a key that has no row: whatever the requests, the
    schedule and the times, once every caller has finished exactly one holds
    [New] and all the others hold [Conflict]. *)
Theorem exactly_one_New key reqs schedule t :
  t !! key = None →
  (0 < length reqs)%nat →
  all_finished (run key reqs schedule (t, start reqs)).2 = true →
  tally is_new (run key reqs schedule (t, start reqs)).2 = 1%nat ∧
  tally is_conflict (run key reqs schedule (t, start reqs)).2 = (length reqs - 1)%nat.
Proof.
  intros Hn Hpos Hfin.
  assert (Hq : quiet key (t, start reqs)).
  { split; [done|]. simpl. unfold start. apply Forall_replicate. done. }
  pose proof (run_length key reqs schedule (t, start reqs)) as Hlen.
  simpl in Hlen. unfold start in Hlen at 2. rewrite length_replicate in Hlen.
  destruct (run_quiet key reqs schedule _ Hq) as [[_ Hall]|(_ & Hone & Hall)].
  - exfalso. destruct ((run key reqs schedule (t, start reqs)).2) as [|c cs]; simpl in *; [lia|].
    apply Forall_cons in Hall as [Hc _]. apply andb_prop in Hfin as [Hf _]. congruence.
  - split; [done|]. pose proof (tally_new_conflict _ Hfin Hall). lia.
Qed.

Lemma step_at_most_one key reqs s e :
  at_most_one key s → at_most_one key (schedule_step key reqs s e).
Proof.
  destruct s as [t cs], e as [i now]. intros [Hle Hone].
  simpl in *. unfold schedule_step, at_most_one. simpl.
  destruct (cs !! i) as [c|] eqn:Hc; [|done].
  destruct (reqs !! i) as [req|] eqn:Hq; [|done].
  pose proof (tally_insert is_new cs i c) as Ht.
  destruct c as [| |o]; simpl.
  - assert (∀ c', is_new c' = false →
              (tally is_new (<[i:=c']> cs) ≤ 1)%nat ∧
              (tally is_new (<[i:=c']> cs) = 1%nat → is_Some (t !! key))) as Hsame.
    { intros c' Hc'. specialize (Ht c' Hc). rewrite Hc' in Ht. simpl in Ht.
      split; [lia|]. intros H1. apply Hone. lia. }
    destruct (inspect (Sql.checkQuery now key t)); by apply Hsame.
  - unfold Sql.insertQuery. destruct (t !! key) as [r|] eqn:Hr; simpl.
    + specialize (Ht (Finished Conflict) Hc). simpl in Ht. split; [lia|eauto].
    + specialize (Ht (Finished New) Hc). simpl in Ht.
      assert (tally is_new cs = 0%nat) as H0.
      { destruct (decide (tally is_new cs = 1%nat)) as [H1|H1]; [|lia].
        destruct (Hone H1) as [? ?]; done. }
      split; [lia|]. intros _. rewrite lookup_insert_eq. eauto.
  - rewrite list_insert_id by done. done.
Qed.

(** X16: from any table and at any point of any schedule, at most one caller
    holds [New]. *)
Theorem never_two_New key reqs schedule t :
  (tally is_new (run key reqs schedule (t, start reqs)).2 ≤ 1)%nat.
Proof.
  assert (at_most_one key (t, start reqs)) as H0.
  { unfold at_most_one, start. simpl.
    rewrite (tally_unfinished is_new); [split; [lia|done]| |].
    - by intros [| |[]].
    - by apply Forall_replicate. }
  enough (at_most_one key (run key reqs schedule (t, start reqs))) as [H _] by done.
  revert H0. generalize (t, start reqs). unfold run.
  induction schedule as [|e sch IH]; intros s H; [done|].
  simpl. apply IH. by apply step_at_most_one.
Qed.

Lemma tryClaim_finishes now_c now_i key req t :
  is_finished (tryClaim now_c now_i key req t).2 = true.
Proof.
  unfold tryClaim. simpl.
  destruct (inspect (Sql.checkQuery now_c key t)); simpl; try done.
  by destruct (Sql.insertQuery _ _ _ _ _ _).
Qed.

Lemma tryClaim_absent now_c now_i key req t :
  t !! key = None →
  tryClaim now_c now_i key req t =
    (<[key := Sql.fresh_row now_i (method req) (path req) (body req)]> t,
     Finished New).
Proof.
  intros Hn. unfold tryClaim. simpl. unfold Sql.checkQuery.
  rewrite Hn. simpl. unfold Sql.insertQuery. by rewrite Hn.
Qed.

Lemma tryClaim_New now_c now_i key req t :
  (tryClaim now_c now_i key req t).2 = Finished New ↔ t !! key = None.
Proof.
  split; [|intros Hn; by rewrite tryClaim_absent].
  unfold tryClaim. simpl.
  destruct (inspect (Sql.checkQuery now_c key t)); simpl; try done.
  unfold Sql.insertQuery. by destruct (t !! key).
Qed.

End ClaimFacts.

(** ** The statements *)

Lemma checkQuery_visible now key (t : Table) r :
  t !! key = Some r → expires_at r > now → Sql.checkQuery now key t = [r].
Proof. intros Hr He. unfold Sql.checkQuery. rewrite Hr. by rewrite bool_decide_true. Qed.

Lemma checkQuery_expired now key (t : Table) r :
  t !! key = Some r → expires_at r ≤ now → Sql.checkQuery now key t = [].
Proof.
  intros Hr He. unfold Sql.checkQuery. rewrite Hr. rewrite bool_decide_false; [done|lia].
Qed.

Lemma checkQuery_absent now key (t : Table) :
  t !! key = None → Sql.checkQuery now key t = [].
Proof. intros Hr. unfold Sql.checkQuery. by rewrite Hr. Qed.


Lemma deleteQuery_lookup now key (t : Table) :
  (Sql.deleteQuery now t).1 !! key =
    match t !! key with
    | Some r => if bool_decide (expires_at r < now) then None else Some r
    | None => None
    end.
Proof.
  unfold Sql.deleteQuery. simpl.
  destruct (t !! key) as [r|] eqn:Hr.
  - case_bool_decide as He.
    + apply map_lookup_filter_None. right. intros r' Hr'. simpl.
      rewrite Hr in Hr'. injection Hr' as <-. auto.
    + apply map_lookup_filter_Some. done.
  - apply map_lookup_filter_None. by left.
Qed.


Lemma inspect_completed_falsy r :
  processing_status r = completed →
  (∀ payload, response_body r = Some payload → ToBoolean payload = false) →
  inspect [r] = NothingUsable.
Proof.
  intros Hp Hb. unfold inspect. rewrite Hp. simpl.
  destruct (response_body r) as [payload|]; [|done]. by rewrite Hb.
Qed.

(** ** The middleware and the claim protocol agree *)

Lemma middleware_follows_claim env handler req key t :
  guarded req key → claim_succeeds env →
  match (Claim.tryClaim (now_check env) (now_insert env) key req t).2 with
  | Claim.Finished Claim.New =>
      t !! key = None ∧
      app env handler req t = next env handler req None (claimed_world env req t key)
  | Claim.Finished Claim.Conflict =>
      responses (trace_of env handler req t) = [(Some 409, conflict_payload)] ∧
      handler_runs (trace_of env handler req t) = 0%nat ∧
      table_after env handler req t = t
  | Claim.Finished (Claim.Replay status payload) =>
      responses (trace_of env handler req t) = [(status, payload)] ∧
      handler_runs (trace_of env handler req t) = 0%nat ∧
      table_after env handler req t = t
  | _ => False
  end.
Proof.
  intros Hg Hs. unfold Claim.tryClaim. simpl.
  destruct (inspect (Sql.checkQuery (now_check env) key t)) as [|status payload|] eqn:Hin; simpl.
  - unfold trace_of, table_after. by rewrite (app_still_processing _ _ _ _ key).
  - unfold trace_of, table_after. by rewrite (app_cached _ _ _ _ key status payload).
  - unfold Sql.insertQuery. destruct (t !! key) as [r|] eqn:Hr; simpl.
    + unfold trace_of, table_after. by rewrite (app_insert_conflict _ _ _ _ key).
    + split; [done|]. by apply app_new.
Qed.

(** ** Replay *)




(** C2: a completed record whose stored body is [false] is not replayed: the
    retry, well before [expires_at], is answered 409 instead of the stored
    200 and [false]. *)
Theorem falsy_body_is_not_replayed :
  table_after (Scenario.at_time 1000) Scenario.answers_false
      (Scenario.post "K1" Scenario.payment) ∅ !! "K1"
    = Some (Sql.set_response 1000 (Some 200) (JBool false)
              (Sql.fresh_row 1000 "POST" "/api/payment" Scenario.payment)) ∧
  responses
    (trace_of (Scenario.at_time 2000) Scenario.created
       (Scenario.post "K1" Scenario.payment)
       (table_after (Scenario.at_time 1000) Scenario.answers_false
          (Scenario.post "K1" Scenario.payment) ∅))
    = [(Some 409, conflict_payload)].
Proof. split; vm_compute; reflexivity. Qed.

(** ** The defensive case *)

(** C10: a visible row that is ['completed'] but has no response body (SQL
    NULL, or JSON null) falls through the replay test to the insert, which
    conflicts: the answer is 409, the handler is not entered and the row is
    left as it was. *)
Theorem completed_without_body_conflicts env handler req key t r :
  guarded req key → claim_succeeds env →
  t !! key = Some r → expires_at r > now_check env →
  processing_status r = completed →
  response_body r = None ∨ response_body r = Some JNull →
  trace_of env handler req t =
    [PoolConnect; Query SelectKey; Query InsertKey;
     Sent (Some 409) conflict_payload] ∧
  handler_runs (trace_of env handler req t) = 0%nat ∧
  table_after env handler req t = t.
Proof.
  intros Hg Hs Hr He Hp Hb.
  assert (inspect (Sql.checkQuery (now_check env) key t) = NothingUsable) as Hin.
  { rewrite (checkQuery_visible _ _ _ r) by done.
    apply inspect_completed_falsy; [done|].
    intros payload Hpay. destruct Hb as [Hb|Hb]; rewrite Hb in Hpay; [done|].
    by injection Hpay as <-. }
  unfold trace_of, table_after.
  rewrite (app_insert_conflict _ _ _ _ key) by eauto. done.
Qed.

Lemma completed_without_body_conflicts_witness :
  trace_of (Scenario.at_time 5) Scenario.created
      (Scenario.post "K1" Scenario.other_payment) {["K1" := Scenario.hollow_row]} =
    [PoolConnect; Query SelectKey; Query InsertKey;
     Sent (Some 409) conflict_payload] ∧
  handler_runs (trace_of (Scenario.at_time 5) Scenario.created
      (Scenario.post "K1" Scenario.other_payment) {["K1" := Scenario.hollow_row]}) = 0%nat ∧
  table_after (Scenario.at_time 5) Scenario.created
      (Scenario.post "K1" Scenario.other_payment) {["K1" := Scenario.hollow_row]}
    = {["K1" := Scenario.hollow_row]}.
Proof.
  apply (completed_without_body_conflicts _ _ _ "K1" _ Scenario.hollow_row).
  - split; reflexivity.
  - repeat split.
  - reflexivity.
  - vm_compute. reflexivity.
  - reflexivity.
  - left. reflexivity.
Defined.

(** ** A failing completion write *)

(** C6: when the claim produced [New] and the [UPDATE] of the patched
    [res.json] is rejected, the rejection is caught and logged, nothing is
    thrown, and the client receives the handler's own status and payload. *)
Theorem completion_write_failure_keeps_response env handler req key t status payload message :
  guarded req key → claim_succeeds env →
  (Claim.tryClaim (now_check env) (now_insert env) key req t).2
    = Claim.Finished Claim.New →
  handler req = Responds status payload →
  update_error env = Some message →
  (app env handler req t).1 = Normal tt ∧
  responses (trace_of env handler req t) = [(Some status, payload)] ∧
  ConsoleError "Failed to cache response:" ∈ trace_of env handler req t ∧
  handler_runs (trace_of env handler req t) = 1%nat.
Proof.
  intros Hg Hs Hnew Hh Hu.
  apply ClaimFacts.tryClaim_New in Hnew.
  unfold trace_of. rewrite (app_new _ _ _ _ key) by done.
  rewrite (next_responds_unstored _ _ _ _ key status payload message) by done.
  simpl. repeat split; try done. set_solver.
Qed.

Lemma completion_write_failure_keeps_response_witness :
  (app (Scenario.update_fails_at 7) Scenario.created
     (Scenario.post "K1" Scenario.payment) ∅).1 = Normal tt ∧
  responses (trace_of (Scenario.update_fails_at 7) Scenario.created
     (Scenario.post "K1" Scenario.payment) ∅) = [(Some 201, JObj [("id", JNum 1)])] ∧
  ConsoleError "Failed to cache response:" ∈
    trace_of (Scenario.update_fails_at 7) Scenario.created
      (Scenario.post "K1" Scenario.payment) ∅ ∧
  handler_runs (trace_of (Scenario.update_fails_at 7) Scenario.created
     (Scenario.post "K1" Scenario.payment) ∅) = 1%nat.
Proof.
  apply (completion_write_failure_keeps_response _ _ _ "K1" _ 201
           (JObj [("id", JNum 1)]) "connection terminated").
  - split; reflexivity.
  - repeat split.
  - vm_compute. reflexivity.
  - reflexivity.
  - reflexivity.
Defined.

(** ** Expiry *)

(** X10: what the insert does to a key whose row is expired but not yet deleted:
    the check sees nothing, the insert conflicts with the row, the answer is
    409 and the handler is not entered. *)
Lemma expired_unswept_row_conflicts env handler req key t r :
  guarded req key → claim_succeeds env →
  t !! key = Some r → expires_at r ≤ now_check env →
  responses (trace_of env handler req t) = [(Some 409, conflict_payload)] ∧
  handler_runs (trace_of env handler req t) = 0%nat ∧
  table_after env handler req t = t.
Proof.
  intros Hg Hs Hr He.
  assert (inspect (Sql.checkQuery (now_check env) key t) = NothingUsable) as Hin.
  { by rewrite (checkQuery_expired _ _ _ r). }
  unfold trace_of, table_after.
  rewrite (app_insert_conflict _ _ _ _ key) by eauto. done.
Qed.

(** The clean-up job deletes every row whose [expires_at] lies before its
    [NOW()], and no other. *)
Lemma cleanup_removes_expired_rows now key (t : Table) r :
  t !! key = Some r →
  (expires_at r < now → (cleanupExpiredKeys now None t).1 !! key = None) ∧
  (now ≤ expires_at r → (cleanupExpiredKeys now None t).1 !! key = Some r).
Proof.
  intros Hr. unfold cleanupExpiredKeys.
  pose proof (deleteQuery_lookup now key t) as Hd. rewrite Hr in Hd.
  destruct (Sql.deleteQuery now t) as [t' n]. simpl in *.
  split; intros He; rewrite Hd.
  - by rewrite bool_decide_true.
  - rewrite bool_decide_false; [done|lia].
Qed.

(** Once the row is deleted the key can be claimed again. *)
Lemma claim_after_cleanup env handler req key t r now :
  guarded req key → claim_succeeds env →
  t !! key = Some r → expires_at r < now →
  app env handler req (cleanupExpiredKeys now None t).1 =
    next env handler req None
      (claimed_world env req (cleanupExpiredKeys now None t).1 key).
Proof.
  intros Hg Hs Hr He. apply app_new; [done..|].
  by apply (cleanup_removes_expired_rows now key t r).
Qed.

(** C3: the key "K3" is claimed and completed at time 0; one microsecond past
    its 24 hours the row is invisible to the check, yet the claim is answered
    409 and the handler is not entered, because the insert conflicts with the
    row that is still stored; the clean-up job run at that time deletes it. *)
Theorem expired_row_still_blocks_the_key :
  Sql.checkQuery (INTERVAL_24_HOURS + 1) "K3"
    (table_after (Scenario.at_time 0) Scenario.created
       (Scenario.post "K3" Scenario.payment) ∅) = [] ∧
  responses
    (trace_of (Scenario.at_time (INTERVAL_24_HOURS + 1)) Scenario.created
       (Scenario.post "K3" Scenario.payment)
       (table_after (Scenario.at_time 0) Scenario.created
          (Scenario.post "K3" Scenario.payment) ∅))
    = [(Some 409, conflict_payload)] ∧
  handler_runs
    (trace_of (Scenario.at_time (INTERVAL_24_HOURS + 1)) Scenario.created
       (Scenario.post "K3" Scenario.payment)
       (table_after (Scenario.at_time 0) Scenario.created
          (Scenario.post "K3" Scenario.payment) ∅)) = 0%nat ∧
  (cleanupExpiredKeys (INTERVAL_24_HOURS + 1) None
     (table_after (Scenario.at_time 0) Scenario.created
        (Scenario.post "K3" Scenario.payment) ∅)).1 !! "K3" = None.
Proof. repeat split; vm_compute; reflexivity. Qed.

(** ** The connection *)


(** X7: behind a successful claim the connection is released once if [res.json]
    is called (by the handler or by the error-handling middleware), whether
    the completion write goes through or not, and not at all otherwise. *)
Lemma claimed_connection_release env handler req key t :
  guarded req key → claim_succeeds env →
  t !! key = None →
  connects (trace_of env handler req t) = 1%nat ∧
  releases (trace_of env handler req t) =
    match handler req with
    | NoResponse => 0%nat
    | _ => 1%nat
    end.
Proof.
  intros Hg Hs Hn. unfold trace_of. rewrite (app_new _ _ _ _ key) by done.
  destruct (handler req) as [status payload|message|] eqn:Hh.
  - destruct (update_error env) as [e|] eqn:Hu.
    + by rewrite (next_responds_unstored _ _ _ _ key status payload e).
    + by rewrite (next_responds_stored _ _ _ _ key status payload).
  - unfold_m. rewrite Hh. cbn. unfold_m. cbn. by destruct (update_error env).
  - by rewrite (next_no_response _ _ _ _ key).
Qed.

(** A rejected check or insert is caught, and the connection released once. *)
Lemma rejected_statement_releases env handler req key t message :
  guarded req key → connect_error env = None →
  check_error env = Some message →
  connects (trace_of env handler req t) = 1%nat ∧
  releases (trace_of env handler req t) = 1%nat.
Proof.
  intros Hg Hc Hch. unfold trace_of.
  by rewrite (app_check_rejected _ _ _ _ key message).
Qed.

(** C4: a request for a key whose record is still being processed is
    answered 409 on a connection that was obtained once and is never
    released; the same holds for a request answered from the cache. *)
Theorem early_answers_never_release :
  connects
    (trace_of (Scenario.at_time 10) Scenario.created
       (Scenario.post "K4" Scenario.payment)
       (table_after (Scenario.at_time 0) Scenario.hangs
          (Scenario.post "K4" Scenario.payment) ∅)) = 1%nat ∧
  releases
    (trace_of (Scenario.at_time 10) Scenario.created
       (Scenario.post "K4" Scenario.payment)
       (table_after (Scenario.at_time 0) Scenario.hangs
          (Scenario.post "K4" Scenario.payment) ∅)) = 0%nat ∧
  responses
    (trace_of (Scenario.at_time 10) Scenario.created
       (Scenario.post "K4" Scenario.payment)
       (table_after (Scenario.at_time 0) Scenario.hangs
          (Scenario.post "K4" Scenario.payment) ∅))
    = [(Some 409, conflict_payload)] ∧
  trace_of (Scenario.at_time 10) Scenario.created
    (Scenario.post "K1" Scenario.payment)
    (table_after (Scenario.at_time 0) Scenario.created
       (Scenario.post "K1" Scenario.payment) ∅)
    = [PoolConnect; Query SelectKey; Sent (Some 201) (JObj [("id", JNum 1)])].
Proof. repeat split; vm_compute; reflexivity. Qed.

(** ** A handler that fails *)







(** ** Requests that pass the layer by *)

Lemma no_key_bypasses req :
  header_idempotency_key req = None → bypasses req = true.
Proof. intros H. unfold bypasses. by rewrite H. Qed.

Lemma get_bypasses req : method req = "GET" → bypasses req = true.
Proof. intros H. unfold bypasses. rewrite H. simpl. apply orb_true_r. Qed.

(** X9: a request that passes by runs the handler once on Express's own
    [res.json]: no connection, no statement, the table untouched. *)
Lemma bypass_runs_handler_only env handler req t :
  bypasses req = true →
  table_after env handler req t = t ∧
  connects (trace_of env handler req t) = 0%nat ∧
  statements (trace_of env handler req t) = 0%nat ∧
  handler_runs (trace_of env handler req t) = 1%nat.
Proof.
  intros Hb. unfold table_after, trace_of. rewrite app_bypass by done.
  unfold_m. by destruct (handler req).
Qed.

(** C7: a HEAD request that carries a key does not pass by: a connection is
    obtained, the check and the insert run, and a row is stored for it. *)
Theorem head_request_is_guarded :
  read_only_method (method (Scenario.head_health "K7")) = true ∧
  bypasses (Scenario.head_health "K7") = false ∧
  connects (trace_of (Scenario.at_time 0) Scenario.created
              (Scenario.head_health "K7") ∅) = 1%nat ∧
  statements (trace_of (Scenario.at_time 0) Scenario.created
                (Scenario.head_health "K7") ∅) = 3%nat ∧
  is_Some (table_after (Scenario.at_time 0) Scenario.created
             (Scenario.head_health "K7") ∅ !! "K7").
Proof.
  repeat split; try (vm_compute; reflexivity).
  eexists. vm_compute. reflexivity.
Qed.

(** ** The response columns *)





(** The statements the application sends keep a table reachable. *)
Lemma app_preserves_reachable env handler req t :
  reachable t → reachable (table_after env handler req t).
Proof.
  intros Hreach. unfold table_after.
  destruct (bypasses req) eqn:Hb.
  { rewrite app_bypass by done. unfold_m. by destruct (handler req). }
  destruct (header_idempotency_key req) as [key|] eqn:Hk.
  2:{ unfold bypasses in Hb. by rewrite Hk in Hb. }
  assert (guarded req key) as Hg by done.
  destruct (connect_error env) as [m|] eqn:Hc.
  { by rewrite (app_connect_rejected _ _ _ _ key m). }
  destruct (check_error env) as [m|] eqn:Hch.
  { by rewrite (app_check_rejected _ _ _ _ key m). }
  destruct (inspect (Sql.checkQuery (now_check env) key t)) as [|status payload|] eqn:Hin.
  - destruct (insert_error env) eqn:Hi; unfold_m;
      rewrite Hb, Hk, Hc, Hch; cbn; by rewrite Hin.
  - destruct (insert_error env) eqn:Hi; unfold_m;
      rewrite Hb, Hk, Hc, Hch; cbn; by rewrite Hin.
  - destruct (insert_error env) as [m|] eqn:Hi.
    { by rewrite (app_insert_rejected _ _ _ _ key m). }
    destruct (t !! key) as [r|] eqn:Hr.
    { by rewrite (app_insert_conflict _ _ _ _ key). }
    rewrite (app_new _ _ _ _ key) by done.
    assert (reachable (idempotency_keys (claimed_world env req t key))) as Hins.
    { pose proof (reach_insert (now_insert env) key (method req) (path req)
                    (body req) t Hreach) as H.
      unfold Sql.insertQuery in H. by rewrite Hr in H. }
    destruct (handler req) as [status payload|message|] eqn:Hh.
    + destruct (update_error env) as [e|] eqn:Hu.
      * by rewrite (next_responds_unstored _ _ _ _ key status payload e).
      * rewrite (next_responds_stored _ _ _ _ key status payload) by done.
        simpl. by apply reach_update.
    + destruct (update_error env) as [e|] eqn:Hu.
      * unfold_m. rewrite Hh. cbn. unfold_m. cbn. rewrite Hu. cbn.
        unfold Sql.insertQuery in Hins. exact Hins.
      * rewrite (next_raises_stored _ _ _ _ key message) by done.
        simpl. by apply reach_update.
    + by rewrite (next_no_response _ _ _ _ key).
Qed.

(** ** The 24 hours *)

(** The row behind a successful claim, whatever the handler does next, keeps
    the time stamps of the insert. *)
Lemma claimed_row_times env handler req key t :
  guarded req key → claim_succeeds env → t !! key = None →
  ∃ r, table_after env handler req t !! key = Some r ∧
       created_at r = now_insert env ∧
       expires_at r = now_insert env + INTERVAL_24_HOURS.
Proof.
  intros Hg Hs Hn. unfold table_after. rewrite (app_new _ _ _ _ key) by done.
  assert (∀ now status payload,
            Sql.updateQuery now status payload key
              (idempotency_keys (claimed_world env req t key)) !! key
            = Some (Sql.set_response now status payload
                      (Sql.fresh_row (now_insert env) (method req) (path req) (body req))))
    as Hupd.
  { intros. unfold Sql.updateQuery. rewrite lookup_alter_eq. simpl.
    by rewrite lookup_insert_eq. }
  destruct (handler req) as [status payload|message|] eqn:Hh.
  - destruct (update_error env) as [e|] eqn:Hu.
    + rewrite (next_responds_unstored _ _ _ _ key status payload e) by done.
      simpl. rewrite lookup_insert_eq. by eexists.
    + rewrite (next_responds_stored _ _ _ _ key status payload) by done.
      simpl. rewrite Hupd. by eexists.
  - destruct (update_error env) as [e|] eqn:Hu.
    + unfold_m. rewrite Hh. cbn. unfold_m. cbn. rewrite Hu. cbn.
      rewrite lookup_insert_eq. by eexists.
    + rewrite (next_raises_stored _ _ _ _ key message) by done.
      simpl. rewrite Hupd. by eexists.
  - rewrite (next_no_response _ _ _ _ key) by done.
    simpl. rewrite lookup_insert_eq. by eexists.
Qed.



(** ** Five callers at once *)

(** Scenario B on a key that has no row: whatever the schedule, of five
    callers that all finish one holds [New] and four hold [Conflict]. *)
Lemma five_callers_one_New schedule :
  Claim.all_finished (Claim.run "K2" Scenario.five schedule (∅, Claim.start Scenario.five)).2 = true →
  Claim.tally Claim.is_new
    (Claim.run "K2" Scenario.five schedule (∅, Claim.start Scenario.five)).2 = 1%nat ∧
  Claim.tally Claim.is_conflict
    (Claim.run "K2" Scenario.five schedule (∅, Claim.start Scenario.five)).2 = 4%nat.
Proof.
  intros Hfin.
  apply (ClaimFacts.exactly_one_New "K2" Scenario.five schedule ∅); [done|simpl; lia|done].
Qed.

(** C1: the key "K2" has a row that expired at 24 hours and has not been
    swept, so it has no unexpired record; five callers run the claim
    protocol one microsecond later, all checking before any inserts; all
    five finish with [Conflict] and none with [New]. *)
Theorem expired_row_blocks_every_caller :
  Sql.checkQuery (INTERVAL_24_HOURS + 1) "K2" {["K2" := Scenario.stale_row]} = [] ∧
  Claim.all_finished
    (Claim.run "K2" Scenario.five (Scenario.checks_then_inserts (INTERVAL_24_HOURS + 1))
       ({["K2" := Scenario.stale_row]}, Claim.start Scenario.five)).2 = true ∧
  Claim.tally Claim.is_new
    (Claim.run "K2" Scenario.five (Scenario.checks_then_inserts (INTERVAL_24_HOURS + 1))
       ({["K2" := Scenario.stale_row]}, Claim.start Scenario.five)).2 = 0%nat ∧
  Claim.tally Claim.is_conflict
    (Claim.run "K2" Scenario.five (Scenario.checks_then_inserts (INTERVAL_24_HOURS + 1))
       ({["K2" := Scenario.stale_row]}, Claim.start Scenario.five)).2 = 5%nat.
Proof. repeat split; vm_compute; reflexivity. Qed.

(** * Further properties *)

(** ** Every request takes one of the ways *)

Lemma app_way env handler req t : Way env handler req t (app env handler req t).
Proof.
  destruct (bypasses req) eqn:Hb.
  { rewrite app_bypass by done. unfold_m.
    destruct (handler req) as [status payload|message|] eqn:Hh.
    - by apply way_bypass_responds.
    - by apply way_bypass_raises.
    - by apply way_bypass_silent. }
  destruct (header_idempotency_key req) as [key|] eqn:Hk.
  2:{ unfold bypasses in Hb. by rewrite Hk in Hb. }
  assert (guarded req key) as Hg by done.
  destruct (connect_error env) as [m|] eqn:Hc.
  { rewrite (app_connect_rejected _ _ _ _ key m) by done.
    by apply (way_connect_rejected _ _ _ _ key). }
  destruct (check_error env) as [m|] eqn:Hch.
  { rewrite (app_check_rejected _ _ _ _ key m) by done.
    apply (way_statement_rejected _ _ _ _ key m [Query SelectKey]); auto. }
  destruct (inspect (Sql.checkQuery (now_check env) key t)) as [|status payload|] eqn:Hin.
  - assert (is_Some (t !! key)) as Hsome.
    { unfold Sql.checkQuery in Hin. destruct (t !! key); [eauto|done]. }
    replace (app env handler req t) with
      (Normal tt,
       {| idempotency_keys := t; res_statusCode := Some 409;
          res_json_method := OriginalJson;
          trace := PoolConnect :: [Query SelectKey]
                   ++ [Sent (Some 409) conflict_payload] |}).
    + apply (way_answered_early _ _ _ _ key); auto.
    + unfold_m. rewrite Hb, Hk, Hc, Hch. cbn. by rewrite Hin.
  - assert (is_Some (t !! key)) as Hsome.
    { unfold Sql.checkQuery in Hin. destruct (t !! key); [eauto|done]. }
    replace (app env handler req t) with
      (Normal tt,
       {| idempotency_keys := t; res_statusCode := status;
          res_json_method := OriginalJson;
          trace := PoolConnect :: [Query SelectKey] ++ [Sent status payload] |}).
    + apply (way_answered_early _ _ _ _ key); auto.
    + unfold_m. rewrite Hb, Hk, Hc, Hch. cbn. by rewrite Hin.
  - destruct (insert_error env) as [m|] eqn:Hi.
    { rewrite (app_insert_rejected _ _ _ _ key m) by done.
      apply (way_statement_rejected _ _ _ _ key m [Query SelectKey; Query InsertKey]); auto. }
    assert (claim_succeeds env) as Hs by done.
    destruct (t !! key) as [r|] eqn:Hr.
    { rewrite (app_insert_conflict _ _ _ _ key) by eauto.
      apply (way_answered_early _ _ _ _ key (Some 409) conflict_payload
               [Query SelectKey; Query InsertKey]); eauto. }
    rewrite (app_new _ _ _ _ key) by done.
    destruct (handler req) as [status payload|message|] eqn:Hh.
    + destruct (update_error env) as [e|] eqn:Hu.
      * rewrite (next_responds_unstored _ _ _ _ key status payload e) by done.
        apply (way_claimed_unstored _ _ _ _ key status payload [] e); try done.
        left. by rewrite Hh.
      * rewrite (next_responds_stored _ _ _ _ key status payload) by done.
        apply (way_claimed_stored _ _ _ _ key status payload []); try done.
        left. by rewrite Hh.
    + destruct (update_error env) as [e|] eqn:Hu.
      * replace (next env handler req None (claimed_world env req t key)) with
          (Normal tt,
           {| idempotency_keys := idempotency_keys (claimed_world env req t key);
              res_statusCode := Some 500;
              res_json_method := PatchedJson key;
              trace := [PoolConnect; Query SelectKey; Query InsertKey; HandlerInvoked]
                       ++ [ConsoleError message]
                       ++ [Query UpdateKey; ConsoleError "Failed to cache response:";
                           ClientRelease; Sent (Some 500) (internal_error message)] |}).
        -- apply (way_claimed_unstored _ _ _ _ key 500 (internal_error message)
                    [ConsoleError message] e); try done.
           right. exists message. by rewrite Hh.
        -- unfold_m. rewrite Hh. cbn. unfold_m. cbn. by rewrite Hu.
      * rewrite (next_raises_stored _ _ _ _ key message) by done.
        apply (way_claimed_stored _ _ _ _ key 500 (internal_error message)
                 [ConsoleError message]); try done.
        right. exists message. by rewrite Hh.
    + rewrite (next_no_response _ _ _ _ key) by done.
      by apply way_claimed_silent.
Qed.

Lemma guarded_key_unique req key key' :
  guarded req key → guarded req key' → key = key'.
Proof. intros [H1 _] [H2 _]. congruence. Qed.

Lemma guarded_not_bypassed req key : guarded req key → bypasses req = true → False.
Proof. intros [_ H1] H2. congruence. Qed.

(** What holds on every way: the connection, the handler, and the table. *)
Lemma way_facts env handler req t cw :
  Way env handler req t cw →
  ((releases (trace cw.2) ≤ connects (trace cw.2))%nat ∧
   (connects (trace cw.2) ≤ 1)%nat ∧
   (handler_runs (trace cw.2) ≤ 1)%nat) ∧
  (∀ k, idempotency_keys cw.2 !! k = t !! k
        ∨ (guarded req k ∧ t !! k = None ∧ handler_runs (trace cw.2) = 1%nat)) ∧
  (∀ key, guarded req key → is_Some (t !! key) →
          handler_runs (trace cw.2) = 0%nat ∧ idempotency_keys cw.2 = t) ∧
  (∀ key, guarded req key → handler_runs (trace cw.2) = 1%nat →
          is_Some (idempotency_keys cw.2 !! key)).
Proof.
  assert (∀ key k (x : Row) (f : Row → Row),
            k ≠ key → alter f key (<[key := x]> t) !! k = t !! k) as Hframe.
  { intros key k x f Hne. rewrite lookup_alter_ne by done. by rewrite lookup_insert_ne. }
  destruct 1 as
    [status payload Hb Hh|message Hb Hh|Hb Hh|key message Hg Hc
    |key message sent Hg Hc Hsent|key status payload sent Hg Hc Hsome Hsent
    |key Hg Hs Hn Hh|key status payload logged Hg Hs Hn Hu Hans
    |key status payload logged e Hg Hs Hn Hu Hans]; simpl.
  - split; [repeat split; vm_compute; lia|]. split; [intros k; by left|].
    split; intros key Hg; by destruct (guarded_not_bypassed req key).
  - split; [repeat split; vm_compute; lia|]. split; [intros k; by left|].
    split; intros key Hg; by destruct (guarded_not_bypassed req key).
  - split; [repeat split; vm_compute; lia|]. split; [intros k; by left|].
    split; intros key Hg; by destruct (guarded_not_bypassed req key).
  - split; [repeat split; vm_compute; lia|]. split; [intros k; by left|].
    split; [done|]. intros key' _ H. vm_compute in H. lia.
  - split; [destruct Hsent as [[-> _]|[-> _]]; repeat split; vm_compute; lia|].
    split; [intros k; by left|].
    split; [intros key' _ _; by destruct Hsent as [[-> _]|[-> _]]|].
    intros key' _ H. destruct Hsent as [[-> _]|[-> _]]; vm_compute in H; lia.
  - split; [destruct Hsent as [->| ->]; repeat split; vm_compute; lia|].
    split; [intros k; by left|].
    split; [intros key' _ _; by destruct Hsent as [->| ->]|].
    intros key' _ H. destruct Hsent as [->| ->]; vm_compute in H; lia.
  - split; [repeat split; vm_compute; lia|]. split; [|split].
    + intros k. destruct (decide (k = key)) as [->|Hne].
      * right. split; [exact Hg|]. split; [exact Hn|]. reflexivity.
      * left. by rewrite lookup_insert_ne.
    + intros key' Hg' Hsome. rewrite (guarded_key_unique req key' key Hg' Hg) in Hsome.
      rewrite Hn in Hsome. by destruct Hsome.
    + intros key' Hg' _. rewrite (guarded_key_unique req key' key Hg' Hg).
      rewrite lookup_insert_eq. eauto.
  - destruct Hans as [[Hh ->]|(m & Hh & -> & -> & ->)];
      (split; [repeat split; vm_compute; lia|]; split; [|split];
       [ intros k; destruct (decide (k = key)) as [->|Hne];
         [ right; split; [exact Hg|]; split; [exact Hn|]; reflexivity
         | left; unfold Sql.updateQuery; by apply Hframe ]
       | intros key' Hg' Hsome;
         rewrite (guarded_key_unique req key' key Hg' Hg) in Hsome;
         rewrite Hn in Hsome; by destruct Hsome
       | intros key' Hg' _; rewrite (guarded_key_unique req key' key Hg' Hg);
         unfold Sql.updateQuery; rewrite lookup_alter_eq, lookup_insert_eq;
         simpl; eauto ]).
  - destruct Hans as [[Hh ->]|(m & Hh & -> & -> & ->)];
      (split; [repeat split; vm_compute; lia|]; split; [|split];
       [ intros k; destruct (decide (k = key)) as [->|Hne];
         [ right; split; [exact Hg|]; split; [exact Hn|]; reflexivity
         | left; by rewrite lookup_insert_ne ]
       | intros key' Hg' Hsome;
         rewrite (guarded_key_unique req key' key Hg' Hg) in Hsome;
         rewrite Hn in Hsome; by destruct Hsome
       | intros key' Hg' _; rewrite (guarded_key_unique req key' key Hg' Hg);
         rewrite lookup_insert_eq; eauto ]).
Qed.

(** ** The connection and the table, on every way *)

(** X1: whatever the request, the environment and the handler, the
    middleware obtains at most one connection and releases it at most once,
    and never releases without having obtained one. *)
Theorem connection_released_at_most_once env handler req t :
  (releases (trace_of env handler req t) ≤ connects (trace_of env handler req t))%nat ∧
  (connects (trace_of env handler req t) ≤ 1)%nat.
Proof.
  unfold trace_of.
  destruct (way_facts env handler req t _ (app_way env handler req t))
    as ((H1 & H2 & _) & _). done.
Qed.

(** X2: a request leaves every row of the table as it found it, except that
    it may add the row of its own key when the key had none, and then the
    handler was entered. *)
Theorem request_touches_only_its_fresh_key env handler req t k :
  table_after env handler req t !! k = t !! k ∨
  (guarded req k ∧ t !! k = None ∧ handler_runs (trace_of env handler req t) = 1%nat).
Proof.
  unfold table_after, trace_of.
  destruct (way_facts env handler req t _ (app_way env handler req t))
    as (_ & H & _). apply H.
Qed.

(** ** At most once *)

Lemma stored_key_blocks_handler env handler req key t :
  guarded req key → is_Some (t !! key) →
  handler_runs (trace_of env handler req t) = 0%nat ∧ table_after env handler req t = t.
Proof.
  intros Hg Hsome. unfold table_after, trace_of.
  destruct (way_facts env handler req t _ (app_way env handler req t))
    as (_ & _ & H & _). by apply (H key).
Qed.

Lemma handler_run_stores_key env handler req key t :
  guarded req key →
  (handler_runs (trace_of env handler req t) ≤ 1)%nat ∧
  (handler_runs (trace_of env handler req t) = 1%nat →
   is_Some (table_after env handler req t !! key)).
Proof.
  intros Hg. unfold table_after, trace_of.
  destruct (way_facts env handler req t _ (app_way env handler req t))
    as ((_ & _ & H1) & _ & _ & H2). split; [done|]. by apply (H2 key).
Qed.

Lemma serve_all_cons {B : Type} (service : Serve.Service B) s call rest :
  Serve.serve_all service s (call :: rest) =
    ((Serve.serve_all service (Serve.serve service s call).1 rest).1,
     (Serve.serve service s call).2
       :: (Serve.serve_all service (Serve.serve service s call).1 rest).2).
Proof. reflexivity. Qed.

Lemma total_runs_cons tr traces :
  Serve.total_runs (tr :: traces) = (handler_runs tr + Serve.total_runs traces)%nat.
Proof. reflexivity. Qed.

Lemma serve_stored {B : Type} (service : Serve.Service B) key call b t :
  guarded call.2 key → is_Some (t !! key) →
  (Serve.serve service (b, t) call).1 = (b, t) ∧
  handler_runs (Serve.serve service (b, t) call).2 = 0%nat.
Proof.
  intros Hg Hsome.
  destruct (stored_key_blocks_handler call.1 (λ _, (service b call.2).2) call.2 key t Hg Hsome)
    as [Hruns Htab].
  unfold trace_of in Hruns. unfold table_after in Htab.
  unfold Serve.serve. simpl. by rewrite Hruns, Htab.
Qed.

Lemma serve_all_stored {B : Type} (service : Serve.Service B) key calls b t :
  Forall (λ call : Env * Request, guarded call.2 key) calls →
  is_Some (t !! key) →
  (Serve.serve_all service (b, t) calls).1 = (b, t) ∧
  Serve.total_runs (Serve.serve_all service (b, t) calls).2 = 0%nat.
Proof.
  intros Hall Hsome. induction Hall as [|call calls Hg _ IH]; [done|].
  rewrite serve_all_cons. cbn [fst snd]. rewrite total_runs_cons.
  destruct (serve_stored service key call b t Hg Hsome) as [H1 H2].
  rewrite H1, H2. destruct IH as [IH1 IH2]. by rewrite IH1, IH2.
Qed.

(** X3: of any number of requests that carry the same key and are served
    one after another, whatever their bodies and whatever fails in between,
    at most one enters the handler, so the service's own tables change at
    most once; if the key already has a row, none enters it. *)
Theorem at_most_once_execution {B : Type} (service : Serve.Service B) key calls b t :
  Forall (λ call : Env * Request, guarded call.2 key) calls →
  (Serve.total_runs (Serve.serve_all service (b, t) calls).2 ≤ 1)%nat ∧
  ((Serve.serve_all service (b, t) calls).1.1 = b ∨
   ∃ call, call ∈ calls ∧
           (Serve.serve_all service (b, t) calls).1.1 = (service b call.2).1) ∧
  (is_Some (t !! key) →
   Serve.total_runs (Serve.serve_all service (b, t) calls).2 = 0%nat ∧
   (Serve.serve_all service (b, t) calls).1 = (b, t)).
Proof.
  intros Hall.
  assert (∀ b t,
            (Serve.total_runs (Serve.serve_all service (b, t) calls).2 ≤ 1)%nat ∧
            ((Serve.serve_all service (b, t) calls).1.1 = b ∨
             ∃ call, call ∈ calls ∧
                     (Serve.serve_all service (b, t) calls).1.1 = (service b call.2).1))
    as Hmain.
  { clear b t. induction Hall as [|call calls Hg Hrest IH]; intros b t.
    { split; [simpl; lia|by left]. }
    rewrite serve_all_cons. cbn [fst snd]. rewrite total_runs_cons.
    destruct (handler_run_stores_key call.1 (λ _, (service b call.2).2) call.2 key t Hg)
      as [Hle Hstored].
    unfold trace_of in Hle, Hstored. unfold table_after in Hstored.
    assert ((Serve.serve service (b, t) call).2
            = trace (app call.1 (λ _, (service b call.2).2) call.2 t).2) as Htr by done.
    assert ((Serve.serve service (b, t) call).1.2
            = idempotency_keys (app call.1 (λ _, (service b call.2).2) call.2 t).2)
      as Htab by done.
    destruct (decide (handler_runs (trace (app call.1 (λ _, (service b call.2).2) call.2 t).2)
                      = 1%nat)) as [H1|H0].
    - assert ((Serve.serve service (b, t) call).1.1 = (service b call.2).1) as Hb.
      { unfold Serve.serve. simpl. by rewrite H1. }
      destruct (Serve.serve service (b, t) call) as [[b' t'] tr]. simpl in *. subst.
      destruct (serve_all_stored service key calls (service b call.2).1 _ Hrest
                  (Hstored H1)) as [Heq Hzero].
      rewrite Heq, Hzero, H1. split; [lia|]. right. exists call. split; [by left|done].
    - assert (handler_runs (trace (app call.1 (λ _, (service b call.2).2) call.2 t).2)
              = 0%nat) as Hzero by lia.
      assert ((Serve.serve service (b, t) call).1.1 = b) as Hb.
      { unfold Serve.serve. simpl. by rewrite Hzero. }
      destruct (Serve.serve service (b, t) call) as [[b' t'] tr]. simpl in *. subst.
      destruct (IH b (idempotency_keys (app call.1 (λ _, (service b call.2).2) call.2 t).2))
        as [IH1 IH2].
      rewrite Hzero. split; [lia|].
      destruct IH2 as [IH2|(c & Hin & IH2)]; [by left|].
      right. exists c. split; [by right|done]. }
  destruct (Hmain b t) as [H1 H2]. split; [done|]. split; [done|].
  intros Hsome.
  destruct (serve_all_stored service key calls b t Hall Hsome) as [Heq Hzero]. done.
Qed.

Lemma at_most_once_execution_witness :
  (Serve.total_runs
     (Serve.serve_all Example.counter (0%nat, ∅) Example.three_calls).2 ≤ 1)%nat.
Proof.
  apply (at_most_once_execution Example.counter "K1" Example.three_calls 0%nat ∅).
  repeat constructor.
Defined.

(** ** Replay, again and again *)




(** ** The table cannot be reached *)

(** X6: when the check, or the insert after a check that fell through, is
    rejected, the request is answered 500 with the rejection's message by
    the error-handling middleware; the handler is not entered, the table is
    left as it was, and the connection is released once. *)
Theorem rejected_statement_answers_500 env handler req key t message :
  guarded req key → connect_error env = None →
  check_error env = Some message
  ∨ (check_error env = None ∧
     inspect (Sql.checkQuery (now_check env) key t) = NothingUsable ∧
     insert_error env = Some message) →
  responses (trace_of env handler req t) = [(Some 500, internal_error message)] ∧
  handler_runs (trace_of env handler req t) = 0%nat ∧
  releases (trace_of env handler req t) = 1%nat ∧
  table_after env handler req t = t.
Proof.
  intros Hg Hc [Hch|(Hch & Hin & Hi)]; unfold trace_of, table_after.
  - by rewrite (app_check_rejected _ _ _ _ key message).
  - by rewrite (app_insert_rejected _ _ _ _ key message).
Qed.

Lemma rejected_statement_answers_500_witness :
  responses (trace_of (Example.check_fails_at 5) Scenario.created
               (Scenario.post "K1" Scenario.payment) ∅)
    = [(Some 500, internal_error "connection refused")] ∧
  handler_runs (trace_of (Example.check_fails_at 5) Scenario.created
                  (Scenario.post "K1" Scenario.payment) ∅) = 0%nat ∧
  releases (trace_of (Example.check_fails_at 5) Scenario.created
              (Scenario.post "K1" Scenario.payment) ∅) = 1%nat ∧
  table_after (Example.check_fails_at 5) Scenario.created
    (Scenario.post "K1" Scenario.payment) ∅ = ∅.
Proof.
  apply (rejected_statement_answers_500 _ _ _ "K1" _ "connection refused").
  - split; reflexivity.
  - reflexivity.
  - left. reflexivity.
Defined.

(** ** Witnesses of the connection and bypass lemmas *)

Lemma claimed_connection_release_witness :
  connects (trace_of (Scenario.update_fails_at 7) Scenario.created
              (Scenario.post "K1" Scenario.payment) ∅) = 1%nat ∧
  releases (trace_of (Scenario.update_fails_at 7) Scenario.created
              (Scenario.post "K1" Scenario.payment) ∅) = 1%nat.
Proof.
  apply (claimed_connection_release (Scenario.update_fails_at 7) Scenario.created
           (Scenario.post "K1" Scenario.payment) "K1" ∅).
  - split; reflexivity.
  - repeat split.
  - reflexivity.
Defined.


Lemma bypass_runs_handler_only_witness :
  table_after (Scenario.at_time 0) Scenario.created Example.get_health
    {["K9" := Scenario.stale_row]} = {["K9" := Scenario.stale_row]} ∧
  connects (trace_of (Scenario.at_time 0) Scenario.created Example.get_health
              {["K9" := Scenario.stale_row]}) = 0%nat ∧
  statements (trace_of (Scenario.at_time 0) Scenario.created Example.get_health
                {["K9" := Scenario.stale_row]}) = 0%nat ∧
  handler_runs (trace_of (Scenario.at_time 0) Scenario.created Example.get_health
                  {["K9" := Scenario.stale_row]}) = 1%nat.
Proof.
  apply (bypass_runs_handler_only (Scenario.at_time 0) Scenario.created
           Example.get_health {["K9" := Scenario.stale_row]}).
  reflexivity.
Defined.

Lemma expired_unswept_row_conflicts_witness :
  responses (trace_of (Scenario.at_time (INTERVAL_24_HOURS + 5)) Scenario.created
               (Scenario.post "K2" Scenario.payment) {["K2" := Scenario.stale_row]})
    = [(Some 409, conflict_payload)] ∧
  handler_runs (trace_of (Scenario.at_time (INTERVAL_24_HOURS + 5)) Scenario.created
                  (Scenario.post "K2" Scenario.payment) {["K2" := Scenario.stale_row]})
    = 0%nat ∧
  table_after (Scenario.at_time (INTERVAL_24_HOURS + 5)) Scenario.created
    (Scenario.post "K2" Scenario.payment) {["K2" := Scenario.stale_row]}
    = {["K2" := Scenario.stale_row]}.
Proof.
  apply (expired_unswept_row_conflicts _ _ _ "K2" _ Scenario.stale_row).
  - split; reflexivity.
  - repeat split.
  - vm_compute. reflexivity.
  - vm_compute. discriminate.
Defined.

(** ** The clean-up job *)

Lemma deleteQuery_sizes now (t : Table) :
  size t = (size (Sql.deleteQuery now t).1 + (Sql.deleteQuery now t).2)%nat.
Proof.
  unfold Sql.deleteQuery. simpl.
  rewrite <- (map_filter_union_complement
                (λ kr : string * Row, expires_at kr.2 < now) t) at 1.
  rewrite map_size_disj_union by apply map_disjoint_filter_complement.
  lia.
Qed.

Lemma deleteQuery_compose now1 now2 (t : Table) :
  (Sql.deleteQuery now2 (Sql.deleteQuery now1 t).1).1
    = (Sql.deleteQuery (Z.max now1 now2) t).1.
Proof.
  apply map_eq. intros key. rewrite !deleteQuery_lookup.
  destruct (t !! key) as [r|]; [|done].
  repeat case_bool_decide; try done; lia.
Qed.

(** X11: the count the clean-up job logs is the number of rows it removed. *)
Theorem cleanup_logs_rows_removed now (t : Table) :
  ∃ rowCount,
    (cleanupExpiredKeys now None t).2 = [Query DeleteExpired; ConsoleLogCleaned rowCount] ∧
    size t = (size (cleanupExpiredKeys now None t).1 + rowCount)%nat.
Proof.
  exists (Sql.deleteQuery now t).2. unfold cleanupExpiredKeys.
  pose proof (deleteQuery_sizes now t) as Hs.
  destruct (Sql.deleteQuery now t) as [t' n]. done.
Qed.

(** X12: a sweep changes nothing for the check of any request that runs at
    or after the sweep's time: the check returns the same rows with and
    without the sweep. *)
Theorem sweep_invisible_to_later_checks now now' error key (t : Table) :
  now ≤ now' →
  Sql.checkQuery now' key (cleanupExpiredKeys now error t).1 = Sql.checkQuery now' key t.
Proof.
  intros Hle. unfold cleanupExpiredKeys. destruct error as [e|]; [done|].
  pose proof (deleteQuery_lookup now key t) as Hd.
  destruct (Sql.deleteQuery now t) as [t' n]. simpl in *.
  unfold Sql.checkQuery. rewrite Hd. destruct (t !! key) as [r|]; [|done].
  case_bool_decide as He; [|done].
  rewrite bool_decide_false; [done|lia].
Qed.

Lemma sweep_invisible_to_later_checks_witness :
  Sql.checkQuery 7 "K1" (cleanupExpiredKeys 5 None {["K1" := Example.done_row]}).1
    = Sql.checkQuery 7 "K1" {["K1" := Example.done_row]}.
Proof.
  apply (sweep_invisible_to_later_checks 5 7 None "K1" {["K1" := Example.done_row]}).
  lia.
Defined.

(** X13: two sweeps one after the other leave the table that one sweep at
    the later of their two times leaves. *)
Theorem sweeps_compose now1 now2 (t : Table) :
  (cleanupExpiredKeys now2 None (cleanupExpiredKeys now1 None t).1).1
    = (cleanupExpiredKeys (Z.max now1 now2) None t).1.
Proof.
  pose proof (deleteQuery_compose now1 now2 t) as H. unfold cleanupExpiredKeys.
  destruct (Sql.deleteQuery now1 t) as [t1 n1]. simpl in *.
  destruct (Sql.deleteQuery now2 t1) as [t2 n2].
  destruct (Sql.deleteQuery (Z.max now1 now2) t) as [tm nm]. done.
Qed.

(** X14: a second sweep at the same or an earlier time removes nothing and
    logs a count of 0. *)
Theorem second_sweep_removes_nothing now1 now2 (t : Table) :
  now2 ≤ now1 →
  cleanupExpiredKeys now2 None (cleanupExpiredKeys now1 None t).1
    = ((cleanupExpiredKeys now1 None t).1, [Query DeleteExpired; ConsoleLogCleaned 0]).
Proof.
  intros Hle. unfold cleanupExpiredKeys.
  pose proof (deleteQuery_compose now1 now2 t) as Hc.
  rewrite Z.max_l in Hc by done.
  pose proof (deleteQuery_sizes now2 (Sql.deleteQuery now1 t).1) as Hs.
  destruct (Sql.deleteQuery now1 t) as [t1 n1]. cbn [fst snd] in *.
  destruct (Sql.deleteQuery now2 t1) as [t2 n2]. cbn [fst snd] in *. subst t2.
  assert (n2 = 0%nat) as -> by lia. done.
Qed.

Lemma second_sweep_removes_nothing_witness :
  cleanupExpiredKeys 5 None
    (cleanupExpiredKeys (INTERVAL_24_HOURS + 1) None {["K2" := Scenario.stale_row]}).1
    = ((cleanupExpiredKeys (INTERVAL_24_HOURS + 1) None {["K2" := Scenario.stale_row]}).1,
       [Query DeleteExpired; ConsoleLogCleaned 0]).
Proof.
  apply (second_sweep_removes_nothing (INTERVAL_24_HOURS + 1) 5).
  vm_compute. discriminate.
Defined.

(** X15: once the sweep has deleted the expired row of a key, the next
    request with the key claims it anew: the handler is entered and its
    answer is sent. *)
Theorem key_reusable_after_sweep env handler req key t r now status payload :
  guarded req key → claim_succeeds env →
  t !! key = Some r → expires_at r < now →
  handler req = Responds status payload →
  handler_runs (trace_of env handler req (cleanupExpiredKeys now None t).1) = 1%nat ∧
  responses (trace_of env handler req (cleanupExpiredKeys now None t).1)
    = [(Some status, payload)] ∧
  ∃ r', table_after env handler req (cleanupExpiredKeys now None t).1 !! key = Some r' ∧
        created_at r' = now_insert env.
Proof.
  intros Hg Hs Hr He Hh.
  assert ((cleanupExpiredKeys now None t).1 !! key = None) as Hn.
  { by apply (cleanup_removes_expired_rows now key t r). }
  destruct (claimed_row_times env handler req key _ Hg Hs Hn) as (r' & Hr' & Hc & _).
  split; [|split; [|by exists r']].
  - unfold trace_of. rewrite (app_new _ _ _ _ key) by done.
    destruct (update_error env) as [e|] eqn:Hu.
    + by rewrite (next_responds_unstored _ _ _ _ key status payload e).
    + by rewrite (next_responds_stored _ _ _ _ key status payload).
  - unfold trace_of. rewrite (app_new _ _ _ _ key) by done.
    destruct (update_error env) as [e|] eqn:Hu.
    + by rewrite (next_responds_unstored _ _ _ _ key status payload e).
    + by rewrite (next_responds_stored _ _ _ _ key status payload).
Qed.

Lemma key_reusable_after_sweep_witness :
  handler_runs
    (trace_of (Scenario.at_time (INTERVAL_24_HOURS + 9)) Scenario.created
       (Scenario.post "K2" Scenario.payment)
       (cleanupExpiredKeys (INTERVAL_24_HOURS + 1) None {["K2" := Scenario.stale_row]}).1)
    = 1%nat ∧
  responses
    (trace_of (Scenario.at_time (INTERVAL_24_HOURS + 9)) Scenario.created
       (Scenario.post "K2" Scenario.payment)
       (cleanupExpiredKeys (INTERVAL_24_HOURS + 1) None {["K2" := Scenario.stale_row]}).1)
    = [(Some 201, JObj [("id", JNum 1)])] ∧
  ∃ r', table_after (Scenario.at_time (INTERVAL_24_HOURS + 9)) Scenario.created
          (Scenario.post "K2" Scenario.payment)
          (cleanupExpiredKeys (INTERVAL_24_HOURS + 1) None
             {["K2" := Scenario.stale_row]}).1 !! "K2" = Some r' ∧
        created_at r' = INTERVAL_24_HOURS + 9.
Proof.
  apply (key_reusable_after_sweep (Scenario.at_time (INTERVAL_24_HOURS + 9))
           Scenario.created (Scenario.post "K2" Scenario.payment) "K2"
           {["K2" := Scenario.stale_row]} Scenario.stale_row
           (INTERVAL_24_HOURS + 1) 201 (JObj [("id", JNum 1)])).
  - split; reflexivity.
  - repeat split.
  - vm_compute. reflexivity.
  - vm_compute. reflexivity.
  - reflexivity.
Defined.

(** ** Schedules that let every caller finish *)

Lemma step_uses_a_turn now key req t c :
  (Fair.steps_left (Claim.step now key req t c).2 ≤ Fair.steps_left c - 1)%nat.
Proof.
  destruct c as [| |o]; simpl.
  - destruct (inspect (Sql.checkQuery now key t)); simpl; lia.
  - destruct (Sql.insertQuery _ _ _ _ _ _). simpl. lia.
  - lia.
Qed.

Lemma schedule_step_lookup key reqs s e i c :
  length s.2 = length reqs →
  s.2 !! i = Some c →
  ∃ c', (Claim.schedule_step key reqs s e).2 !! i = Some c' ∧
        (Fair.steps_left c' ≤ Fair.steps_left c - (if Nat.eqb e.1 i then 1 else 0))%nat.
Proof.
  destruct s as [t cs], e as [j now]. simpl. intros Hlen Hc.
  unfold Claim.schedule_step. simpl.
  destruct (Nat.eqb_spec j i) as [->|Hne].
  - rewrite Hc.
    destruct (reqs !! i) as [req|] eqn:Hreq.
    + pose proof (step_uses_a_turn now key req t c) as Hstep.
      destruct (Claim.step now key req t c) as [t' c']. simpl in *.
      exists c'. split; [|done]. apply list_lookup_insert_eq.
      by apply lookup_lt_Some in Hc.
    + apply lookup_lt_Some in Hc. apply lookup_ge_None in Hreq. lia.
  - destruct (cs !! j) as [cj|] eqn:Hj; [|exists c; split; [done|lia]].
    destruct (reqs !! j) as [req|]; [|exists c; split; [done|lia]].
    destruct (Claim.step now key req t cj) as [t' c']. simpl.
    exists c. split; [|lia]. by rewrite list_lookup_insert_ne.
Qed.

Lemma run_uses_turns key reqs schedule s i c :
  length s.2 = length reqs →
  s.2 !! i = Some c →
  ∃ c', (Claim.run key reqs schedule s).2 !! i = Some c' ∧
        (Fair.steps_left c' ≤ Fair.steps_left c - Fair.turns i schedule)%nat.
Proof.
  unfold Claim.run. revert s c.
  induction schedule as [|e sch IH]; intros s c Hlen Hc.
  { exists c. split; [done|]. unfold Fair.turns. simpl. lia. }
  simpl.
  destruct (schedule_step_lookup key reqs s e i c Hlen Hc) as (c1 & Hc1 & Hle1).
  destruct (IH (Claim.schedule_step key reqs s e) c1) as (c' & Hc' & Hle'); [|done|].
  { by rewrite ClaimFacts.schedule_step_length. }
  exists c'. split; [done|].
  unfold Fair.turns in *. simpl. destruct (Nat.eqb e.1 i); simpl; lia.
Qed.

Lemma fair_run_finishes key reqs schedule t :
  Fair.fair (length reqs) schedule →
  Claim.all_finished (Claim.run key reqs schedule (t, Claim.start reqs)).2 = true.
Proof.
  intros Hfair. unfold Claim.all_finished. apply forallb_forall.
  intros c Hin. apply list_elem_of_In in Hin. apply list_elem_of_lookup in Hin as [i Hi].
  assert (i < length reqs)%nat as Hlt.
  { apply lookup_lt_Some in Hi. rewrite ClaimFacts.run_length in Hi.
    simpl in Hi. unfold Claim.start in Hi. by rewrite length_replicate in Hi. }
  destruct (run_uses_turns key reqs schedule (t, Claim.start reqs) i Claim.AtCheck)
    as (c' & Hc' & Hle).
  { simpl. unfold Claim.start. by rewrite length_replicate. }
  { simpl. unfold Claim.start. by apply lookup_replicate_2. }
  rewrite Hi in Hc'. injection Hc' as <-.
  specialize (Hfair i Hlt). simpl in Hle.
  destruct c as [| |o]; simpl in *; try lia; done.
Qed.

(** X17: on a key that has no row, every schedule that gives each caller at
    least two turns lets every caller finish, one with [New] and all the
    others with [Conflict], whatever the order of the turns and the times. *)
Theorem fair_schedule_one_New key reqs schedule t :
  t !! key = None →
  (0 < length reqs)%nat →
  Fair.fair (length reqs) schedule →
  Claim.all_finished (Claim.run key reqs schedule (t, Claim.start reqs)).2 = true ∧
  Claim.tally Claim.is_new (Claim.run key reqs schedule (t, Claim.start reqs)).2 = 1%nat ∧
  Claim.tally Claim.is_conflict (Claim.run key reqs schedule (t, Claim.start reqs)).2
    = (length reqs - 1)%nat.
Proof.
  intros Hn Hpos Hfair.
  pose proof (fair_run_finishes key reqs schedule t Hfair) as Hfin.
  split; [done|]. by apply ClaimFacts.exactly_one_New.
Qed.

Lemma fair_schedule_one_New_witness :
  Claim.all_finished
    (Claim.run "K2" Scenario.five (Scenario.checks_then_inserts 3)
       (∅, Claim.start Scenario.five)).2 = true ∧
  Claim.tally Claim.is_new
    (Claim.run "K2" Scenario.five (Scenario.checks_then_inserts 3)
       (∅, Claim.start Scenario.five)).2 = 1%nat ∧
  Claim.tally Claim.is_conflict
    (Claim.run "K2" Scenario.five (Scenario.checks_then_inserts 3)
       (∅, Claim.start Scenario.five)).2 = (length Scenario.five - 1)%nat.
Proof.
  apply (fair_schedule_one_New "K2" Scenario.five (Scenario.checks_then_inserts 3) ∅).
  - reflexivity.
  - vm_compute. lia.
  - intros i Hi. change (length Scenario.five) with 5%nat in Hi.
    do 5 (destruct i as [|i]; [vm_compute; lia|]). lia.
Defined.

(** ** The payment handler *)

Ltac unfold_shop :=
  unfold Shop.run_of, Shop.completion_of, Shop.paymentHandler, Shop.orderHandler,
    Shop.readable, Shop.connect, Shop.query, Shop.query_returning,
    Shop.try_catch_finally, Shop.respond, Shop.emit, Shop.throw, Shop.iterate,
    Shop.fresh, mbind, mret, Shop.T_bind, Shop.T_ret in *.

(** Every run of the payment handler, by what the environment answers. *)
Lemma payment_runs db req :
  body req ≠ JNull →
  Shop.paymentHandler db req Shop.fresh =
    if negb (Shop.truthy (Shop.property "amount" (body req)))
       || negb (Shop.truthy (Shop.property "userId" (body req)))
    then (Normal tt, {| Shop.events := []; Shop.answers := [(400, Shop.payment_invalid)] |})
    else
      match Shop.payment_connect db with
      | Some m => (Throw m, Shop.fresh)
      | None =>
          let insert :=
            Shop.InsertPayment (Shop.payment_uuid db)
              (Shop.property "userId" (body req)) (Shop.property "amount" (body req))
              (Shop.or_null (Shop.property "description" (body req))) "completed" in
          let update :=
            Shop.UpdateBalance (Shop.property "amount" (body req))
              (Shop.property "userId" (body req)) in
          let failed (sent : list Shop.Statement) (m : string) :=
            match Shop.payment_rollback db with
            | Some m' =>
                (Throw m',
                 {| Shop.events := Shop.Connect :: (Shop.Query <$> sent)
                                   ++ [Shop.Query Shop.Rollback; Shop.Release];
                    Shop.answers := [] |})
            | None =>
                (Normal tt,
                 {| Shop.events := Shop.Connect :: (Shop.Query <$> sent)
                                   ++ [Shop.Query Shop.Rollback;
                                       Shop.ConsoleError "Payment error:"; Shop.Release];
                    Shop.answers := [(500, Shop.payment_failure m)] |})
            end in
          match Shop.payment_begin db with
          | Some m => failed [Shop.Begin] m
          | None =>
              match Shop.payment_insert db with
              | inl m => failed [Shop.Begin; insert] m
              | inr payment =>
                  match Shop.payment_balance db with
                  | inl m => failed [Shop.Begin; insert; update] m
                  | inr [] => failed [Shop.Begin; insert; update] "User not found"
                  | inr (balance :: _) =>
                      match Shop.payment_commit db with
                      | Some m => failed [Shop.Begin; insert; update; Shop.Commit] m
                      | None =>
                          (Normal tt,
                           {| Shop.events :=
                                [Shop.Connect; Shop.Query Shop.Begin; Shop.Query insert;
                                 Shop.Query update; Shop.Query Shop.Commit; Shop.Release];
                              Shop.answers :=
                                [(201, Shop.payment_success payment balance)] |})
                      end
                  end
              end
          end
      end.
Proof.
  intros Hbody. unfold_shop.
  destruct (body req) eqn:Hb; try done;
    (destruct (negb _ || negb _); [reflexivity|];
     destruct (Shop.payment_connect db); [reflexivity|];
     destruct (Shop.payment_rollback db), (Shop.payment_begin db); try reflexivity;
     destruct (Shop.payment_insert db); try reflexivity;
     destruct (Shop.payment_balance db) as [?|[|? ?]]; try reflexivity;
     destruct (Shop.payment_commit db); reflexivity).
Qed.

Lemma null_or_not (v : json) : v = JNull ∨ v ≠ JNull.
Proof. destruct v; auto. Qed.

(** X18: a payment request whose body has no [amount] or no [userId], or
    has one of them falsy (an amount of [0], say), is answered 400 before a
    connection is obtained or a statement sent. *)
Theorem payment_validation_rejects db req :
  body req ≠ JNull →
  Shop.truthy (Shop.property "amount" (body req)) = false
  ∨ Shop.truthy (Shop.property "userId" (body req)) = false →
  Shop.paymentHandler db req Shop.fresh =
    (Normal tt, {| Shop.events := []; Shop.answers := [(400, Shop.payment_invalid)] |}).
Proof.
  intros Hbody Hfalsy. rewrite payment_runs by done.
  destruct Hfalsy as [-> | ->]; simpl; [done|]. by rewrite orb_true_r.
Qed.

(** X19: on every run of the payment handler the connection is released
    exactly as often as it was obtained, and that is at most once. *)
Theorem payment_releases_its_connection db req :
  Shop.occurrences Shop.is_release (Shop.events (Shop.run_of (Shop.paymentHandler db req)))
    = Shop.occurrences Shop.is_connect (Shop.events (Shop.run_of (Shop.paymentHandler db req)))
  ∧ (Shop.occurrences Shop.is_connect
       (Shop.events (Shop.run_of (Shop.paymentHandler db req))) ≤ 1)%nat.
Proof.
  destruct (null_or_not (body req)) as [Hnull|Hbody].
  { unfold_shop. rewrite Hnull. simpl. split; [done|]. vm_compute. lia. }
  unfold Shop.run_of. rewrite payment_runs by done.
  destruct (negb _ || negb _); [split; [done|vm_compute; lia]|].
  destruct (Shop.payment_connect db); [split; [done|vm_compute; lia]|].
  destruct (Shop.payment_rollback db), (Shop.payment_begin db),
    (Shop.payment_insert db), (Shop.payment_balance db) as [?|[|? ?]],
    (Shop.payment_commit db); split; (reflexivity || (vm_compute; lia)).
Qed.

(** X20: the payment handler answers at most once; it answers 201 only when
    every statement was accepted and COMMIT was the last one sent, with no
    ROLLBACK; it answers 500 only after a ROLLBACK that was sent last and
    accepted; it answers 400 only without having sent anything; and it ends
    without an answer only by throwing. *)
Theorem payment_transaction_discipline db req :
  match Shop.answers (Shop.run_of (Shop.paymentHandler db req)) with
  | [] => ∃ m, Shop.completion_of (Shop.paymentHandler db req) = Throw m
  | [(code, payload)] =>
      Shop.completion_of (Shop.paymentHandler db req) = Normal tt ∧
      (code = 400 ∧ Shop.events (Shop.run_of (Shop.paymentHandler db req)) = []
       ∨ code = 201 ∧
         last (Shop.statements_of (Shop.events (Shop.run_of (Shop.paymentHandler db req))))
           = Some Shop.Commit ∧
         existsb Shop.is_rollback
           (Shop.statements_of (Shop.events (Shop.run_of (Shop.paymentHandler db req))))
           = false ∧
         Shop.payment_commit db = None
       ∨ code = 500 ∧
         last (Shop.statements_of (Shop.events (Shop.run_of (Shop.paymentHandler db req))))
           = Some Shop.Rollback ∧
         Shop.payment_rollback db = None ∧
         ∃ m, payload = Shop.payment_failure m)
  | _ => False
  end.
Proof.
  destruct (null_or_not (body req)) as [Hnull|Hbody].
  { unfold_shop. rewrite Hnull. simpl. eauto. }
  unfold Shop.run_of, Shop.completion_of. rewrite payment_runs by done.
  destruct (negb _ || negb _); [simpl; auto|].
  destruct (Shop.payment_connect db); [simpl; eauto|].
  destruct (Shop.payment_rollback db) eqn:Hrb, (Shop.payment_begin db),
    (Shop.payment_insert db), (Shop.payment_balance db) as [?|[|? ?]],
    (Shop.payment_commit db) eqn:Hcm; simpl; eauto 10.
Qed.

(** X21: when the UPDATE of the balance returns no row, no COMMIT is sent:
    the handler sends ROLLBACK, answers 500 with the message "User not
    found", and releases its connection. *)
Theorem payment_for_unknown_user db req payment :
  body req ≠ JNull →
  Shop.truthy (Shop.property "amount" (body req)) = true →
  Shop.truthy (Shop.property "userId" (body req)) = true →
  Shop.payment_connect db = None → Shop.payment_begin db = None →
  Shop.payment_insert db = inr payment →
  Shop.payment_balance db = inr [] →
  Shop.payment_rollback db = None →
  Shop.answers (Shop.run_of (Shop.paymentHandler db req))
    = [(500, Shop.payment_failure "User not found")] ∧
  Shop.statements_of (Shop.events (Shop.run_of (Shop.paymentHandler db req)))
    = [Shop.Begin;
       Shop.InsertPayment (Shop.payment_uuid db)
         (Shop.property "userId" (body req)) (Shop.property "amount" (body req))
         (Shop.or_null (Shop.property "description" (body req))) "completed";
       Shop.UpdateBalance (Shop.property "amount" (body req))
         (Shop.property "userId" (body req));
       Shop.Rollback] ∧
  Shop.occurrences Shop.is_release (Shop.events (Shop.run_of (Shop.paymentHandler db req)))
    = 1%nat.
Proof.
  intros Hbody Ha Hu Hc Hb Hi Hbal Hrb. unfold Shop.run_of.
  rewrite payment_runs by done. rewrite Ha, Hu, Hc, Hb, Hi, Hbal. simpl.
  rewrite Hrb. done.
Qed.

(** ** The order handler *)

Lemma insert_items_outcome db orderId k items r :
  Shop.insert_items db orderId k items r =
    (match (Shop.items_outcome db orderId k items).2 with
     | None => Normal tt
     | Some m => Throw m
     end,
     {| Shop.events := Shop.events r
                       ++ (Shop.Query <$> (Shop.items_outcome db orderId k items).1);
        Shop.answers := Shop.answers r |}).
Proof.
  revert k r. induction items as [|item rest IH]; intros k r.
  { simpl. unfold mret, Shop.T_ret. rewrite app_nil_r. by destruct r. }
  assert (∀ r0 : Shop.Run,
            (match Shop.order_item db k with
             | Some m => (Throw m : Completion unit,
                          {| Shop.events := Shop.events r0
                                            ++ [Shop.Query (Shop.item_statement orderId item)];
                             Shop.answers := Shop.answers r0 |})
             | None => Shop.insert_items db orderId (S k) rest
                         {| Shop.events := Shop.events r0
                                           ++ [Shop.Query (Shop.item_statement orderId item)];
                            Shop.answers := Shop.answers r0 |}
             end)
            = (match (match Shop.order_item db k with
                      | Some message => ([Shop.item_statement orderId item], Some message)
                      | None => (Shop.item_statement orderId item
                                   :: (Shop.items_outcome db orderId (S k) rest).1,
                                 (Shop.items_outcome db orderId (S k) rest).2)
                      end).2 with
               | None => Normal tt
               | Some m => Throw m
               end,
               {| Shop.events :=
                    Shop.events r0 ++
                    (Shop.Query <$>
                       (match Shop.order_item db k with
                        | Some message => ([Shop.item_statement orderId item], Some message)
                        | None => (Shop.item_statement orderId item
                                     :: (Shop.items_outcome db orderId (S k) rest).1,
                                   (Shop.items_outcome db orderId (S k) rest).2)
                        end).1);
                  Shop.answers := Shop.answers r0 |})) as Hstep.
  { intros r0. destruct (Shop.order_item db k); [done|].
    rewrite IH. simpl. by rewrite <- app_assoc. }
  destruct item; simpl; unfold_shop; simpl;
    try (specialize (Hstep r); destruct (Shop.order_item db k); exact Hstep).
  rewrite app_nil_r. by destruct r.
Qed.

Lemma items_outcome_no_rollback db orderId k items :
  existsb Shop.is_rollback (Shop.items_outcome db orderId k items).1 = false ∧
  existsb Shop.is_commit (Shop.items_outcome db orderId k items).1 = false ∧
  length (Shop.items_outcome db orderId k items).1
    = length (List.filter Shop.is_item (Shop.items_outcome db orderId k items).1).
Proof.
  revert k. induction items as [|item rest IH]; intros k; [done|].
  assert (∀ i, i ≠ JNull →
            Shop.items_outcome db orderId k (i :: rest) =
              match Shop.order_item db k with
              | Some message => ([Shop.item_statement orderId i], Some message)
              | None => (Shop.item_statement orderId i
                           :: (Shop.items_outcome db orderId (S k) rest).1,
                         (Shop.items_outcome db orderId (S k) rest).2)
              end) as Hcons.
  { intros i Hi. by destruct i. }
  destruct (null_or_not item) as [->|Hitem]; [done|].
  rewrite Hcons by done. destruct (Shop.order_item db k); [done|].
  destruct (IH (S k)) as (H1 & H2 & H3). simpl. rewrite H1, H2, H3. done.
Qed.

(** Every run of the order handler, by what the environment answers. *)
Lemma order_runs db req :
  body req ≠ JNull →
  Shop.orderHandler db req Shop.fresh =
    if negb (Shop.truthy (Shop.property "userId" (body req)))
       || negb (Shop.truthy (Shop.property "items" (body req)))
       || negb (Shop.truthy (Shop.property "totalAmount" (body req)))
    then (Normal tt, {| Shop.events := []; Shop.answers := [(400, Shop.order_invalid)] |})
    else
      match Shop.order_connect db with
      | Some m => (Throw m, Shop.fresh)
      | None =>
          let insert :=
            Shop.InsertOrder (Shop.order_uuid db)
              (Shop.property "userId" (body req))
              (Shop.property "totalAmount" (body req)) "pending" in
          let failed (sent : list Shop.Statement) (m : string) :=
            match Shop.order_rollback db with
            | Some m' =>
                (Throw m',
                 {| Shop.events := Shop.Connect :: (Shop.Query <$> sent)
                                   ++ [Shop.Query Shop.Rollback; Shop.Release];
                    Shop.answers := [] |})
            | None =>
                (Normal tt,
                 {| Shop.events := Shop.Connect :: (Shop.Query <$> sent)
                                   ++ [Shop.Query Shop.Rollback;
                                       Shop.ConsoleError "Order creation error:";
                                       Shop.Release];
                    Shop.answers := [(500, Shop.order_failure m)] |})
            end in
          match Shop.order_begin db with
          | Some m => failed [Shop.Begin] m
          | None =>
              match Shop.order_insert db with
              | inl m => failed [Shop.Begin; insert] m
              | inr order =>
                  match Shop.elements_of (Shop.property "items" (body req)) with
                  | None => failed [Shop.Begin; insert] "items is not iterable"
                  | Some elements =>
                      let loop := Shop.items_outcome db (Shop.order_uuid db) 0 elements in
                      match loop.2 with
                      | Some m => failed ([Shop.Begin; insert] ++ loop.1)%list m
                      | None =>
                          match Shop.order_commit db with
                          | Some m =>
                              failed ([Shop.Begin; insert] ++ loop.1 ++ [Shop.Commit])%list m
                          | None =>
                              (Normal tt,
                               {| Shop.events :=
                                    Shop.Connect
                                    :: (Shop.Query <$>
                                          ([Shop.Begin; insert] ++ loop.1 ++ [Shop.Commit])%list)
                                    ++ [Shop.Release];
                                  Shop.answers := [(201, Shop.order_success order)] |})
                          end
                      end
                  end
              end
          end
      end.
Proof.
  intros Hbody. unfold_shop.
  destruct (body req) eqn:Hb; try done;
    (destruct (negb _ || negb _ || negb _); [reflexivity|];
     destruct (Shop.order_connect db); [reflexivity|];
     destruct (Shop.order_rollback db), (Shop.order_begin db); try reflexivity;
     destruct (Shop.order_insert db); try reflexivity;
     destruct (Shop.property "items" _) as [[]|]; try reflexivity;
     simpl; rewrite insert_items_outcome; simpl;
     destruct (Shop.items_outcome db (Shop.order_uuid db) 0 _) as [sent [m|]]; simpl;
     rewrite ?fmap_app, <- ?app_assoc; simpl; try reflexivity;
     destruct (Shop.order_commit db); simpl; rewrite <- ?app_assoc; reflexivity).
Qed.

Lemma statements_of_app evs1 evs2 :
  Shop.statements_of (evs1 ++ evs2)
    = (Shop.statements_of evs1 ++ Shop.statements_of evs2)%list.
Proof.
  induction evs1 as [|e evs1 IH]; [done|]. destruct e; simpl; by rewrite IH.
Qed.

Lemma statements_of_queries sent : Shop.statements_of (Shop.Query <$> sent) = sent.
Proof.
  induction sent as [|s sent IH]; [done|].
  rewrite fmap_cons. cbn [Shop.statements_of]. by rewrite IH.
Qed.

Lemma occurrences_app p evs1 evs2 :
  Shop.occurrences p (evs1 ++ evs2)
    = (Shop.occurrences p evs1 + Shop.occurrences p evs2)%nat.
Proof. unfold Shop.occurrences. by rewrite List.filter_app, length_app. Qed.

Lemma occurrences_cons p e evs :
  Shop.occurrences p (e :: evs)
    = ((if p e then 1 else 0) + Shop.occurrences p evs)%nat.
Proof. unfold Shop.occurrences. simpl. by destruct (p e). Qed.

Lemma occurrences_queries p sent :
  (∀ s, p (Shop.Query s) = false) →
  Shop.occurrences p (Shop.Query <$> sent) = 0%nat.
Proof.
  intros Hp. unfold Shop.occurrences. induction sent as [|s sent IH]; [done|].
  rewrite fmap_cons. cbn [List.filter]. by rewrite Hp.
Qed.

Lemma items_outcome_accepted db orderId off items :
  Forall (λ i, i ≠ JNull) items →
  (∀ j, (j < length items)%nat → Shop.order_item db (off + j) = None) →
  Shop.items_outcome db orderId off items
    = (Shop.item_statement orderId <$> items, None).
Proof.
  intros Hall. revert off. induction Hall as [|item rest Hitem _ IH]; intros off Hok; [done|].
  assert (Shop.order_item db off = None) as H0.
  { rewrite <- (Nat.add_0_r off). apply Hok. simpl. lia. }
  assert (Shop.items_outcome db orderId (S off) rest
          = (Shop.item_statement orderId <$> rest, None)) as Hrest.
  { apply IH. intros j Hj. replace (S off + j)%nat with (off + S j)%nat by lia.
    apply Hok. simpl. lia. }
  destruct item; try done; simpl; by rewrite H0, Hrest.
Qed.

Lemma items_outcome_rejected db orderId off items k m :
  Forall (λ i, i ≠ JNull) items →
  (k < length items)%nat →
  (∀ j, (j < k)%nat → Shop.order_item db (off + j) = None) →
  Shop.order_item db (off + k) = Some m →
  Shop.items_outcome db orderId off items
    = (Shop.item_statement orderId <$> take (S k) items, Some m).
Proof.
  intros Hall. revert off k.
  induction Hall as [|item rest Hitem _ IH]; intros off k Hk Hok Hrej; [simpl in Hk; lia|].
  destruct k as [|k].
  - rewrite Nat.add_0_r in Hrej. destruct item; try done; simpl; by rewrite Hrej.
  - assert (Shop.order_item db off = None) as H0.
    { rewrite <- (Nat.add_0_r off). apply Hok. lia. }
    assert (Shop.items_outcome db orderId (S off) rest
            = (Shop.item_statement orderId <$> take (S k) rest, Some m)) as Hrest.
    { apply IH.
      - simpl in Hk. lia.
      - intros j Hj. replace (S off + j)%nat with (off + S j)%nat by lia. apply Hok. lia.
      - by replace (S off + k)%nat with (off + S k)%nat by lia. }
    destruct item; try done; simpl; by rewrite H0, Hrest.
Qed.

Lemma items_outcome_complete db orderId off items :
  (Shop.items_outcome db orderId off items).2 = None →
  length (Shop.items_outcome db orderId off items).1 = length items.
Proof.
  revert off. induction items as [|item rest IH]; intros off; [done|].
  destruct item; simpl; try done;
    (destruct (Shop.order_item db off); [done|]; simpl; intros H; by rewrite IH).
Qed.

(** X23: an order whose items are an array without [null], every one of whose
    inserts is accepted, sends BEGIN, the insert of the order, one insert
    per item in the order of the array, and COMMIT, and is answered 201; an
    empty array is such an order, created without any item. *)
Theorem order_with_all_items_accepted db req items order :
  body req ≠ JNull →
  Shop.truthy (Shop.property "userId" (body req)) = true →
  Shop.truthy (Shop.property "totalAmount" (body req)) = true →
  Shop.property "items" (body req) = Some (JArr items) →
  Forall (λ i, i ≠ JNull) items →
  Shop.order_connect db = None → Shop.order_begin db = None →
  Shop.order_insert db = inr order →
  (∀ j, (j < length items)%nat → Shop.order_item db j = None) →
  Shop.order_commit db = None →
  Shop.answers (Shop.run_of (Shop.orderHandler db req)) = [(201, Shop.order_success order)] ∧
  Shop.statements_of (Shop.events (Shop.run_of (Shop.orderHandler db req)))
    = ([Shop.Begin;
       Shop.InsertOrder (Shop.order_uuid db) (Shop.property "userId" (body req))
         (Shop.property "totalAmount" (body req)) "pending"]
      ++ (Shop.item_statement (Shop.order_uuid db) <$> items)
      ++ [Shop.Commit])%list.
Proof.
  intros Hbody Hu Ht Hitems Hall Hc Hb Hi Hok Hcm. unfold Shop.run_of.
  rewrite order_runs by done. rewrite Hu, Ht, Hitems, Hc, Hb, Hi. simpl.
  rewrite (items_outcome_accepted db _ 0 items Hall Hok). simpl. rewrite Hcm. simpl.
  split; [done|].
  rewrite statements_of_app, statements_of_queries. simpl. by rewrite app_nil_r.
Qed.

Lemma order_with_all_items_accepted_witness :
  Shop.answers (Shop.run_of (Shop.orderHandler Example.order_db (Example.order (JArr []))))
    = [(201, Shop.order_success (JObj [("id", JNum 1)]))] ∧
  Shop.statements_of
    (Shop.events (Shop.run_of (Shop.orderHandler Example.order_db (Example.order (JArr [])))))
    = ([Shop.Begin;
       Shop.InsertOrder (Shop.order_uuid Example.order_db)
         (Shop.property "userId" (body (Example.order (JArr []))))
         (Shop.property "totalAmount" (body (Example.order (JArr [])))) "pending"]
      ++ (Shop.item_statement (Shop.order_uuid Example.order_db) <$> [])
      ++ [Shop.Commit])%list.
Proof.
  apply (order_with_all_items_accepted Example.order_db (Example.order (JArr [])) []
           (JObj [("id", JNum 1)])).
  - discriminate.
  - reflexivity.
  - reflexivity.
  - reflexivity.
  - constructor.
  - reflexivity.
  - reflexivity.
  - reflexivity.
  - intros j Hj. simpl in Hj. lia.
  - reflexivity.
Defined.

(** X24: when the insert of the item at position [k] is the first to be
    rejected, the handler has sent the inserts of the items up to and
    including that one and no more; it then sends ROLLBACK and answers 500
    with the rejection's message. *)
Theorem order_stops_at_first_rejected_item db req items order k m :
  body req ≠ JNull →
  Shop.truthy (Shop.property "userId" (body req)) = true →
  Shop.truthy (Shop.property "totalAmount" (body req)) = true →
  Shop.property "items" (body req) = Some (JArr items) →
  Forall (λ i, i ≠ JNull) items →
  Shop.order_connect db = None → Shop.order_begin db = None →
  Shop.order_insert db = inr order →
  (k < length items)%nat →
  (∀ j, (j < k)%nat → Shop.order_item db j = None) →
  Shop.order_item db k = Some m →
  Shop.order_rollback db = None →
  Shop.answers (Shop.run_of (Shop.orderHandler db req)) = [(500, Shop.order_failure m)] ∧
  Shop.statements_of (Shop.events (Shop.run_of (Shop.orderHandler db req)))
    = ([Shop.Begin;
       Shop.InsertOrder (Shop.order_uuid db) (Shop.property "userId" (body req))
         (Shop.property "totalAmount" (body req)) "pending"]
      ++ (Shop.item_statement (Shop.order_uuid db) <$> take (S k) items)
      ++ [Shop.Rollback])%list.
Proof.
  intros Hbody Hu Ht Hitems Hall Hc Hb Hi Hk Hok Hrej Hrb. unfold Shop.run_of.
  rewrite order_runs by done.
  assert (Shop.truthy (Some (JArr items)) = true) as Htr by done.
  rewrite Hu, Ht, Hitems, Htr, Hc, Hb, Hi. simpl.
  rewrite (items_outcome_rejected db _ 0 items k m Hall Hk Hok Hrej). simpl.
  rewrite Hrb. simpl. split; [done|].
  rewrite statements_of_app, statements_of_queries. simpl. done.
Qed.

Lemma order_stops_at_first_rejected_item_witness :
  Shop.answers
    (Shop.run_of (Shop.orderHandler Example.order_db
       (Example.order (JArr [Example.item 101; Example.item 102; Example.item 103]))))
    = [(500, Shop.order_failure "null value in column")] ∧
  Shop.statements_of
    (Shop.events (Shop.run_of (Shop.orderHandler Example.order_db
       (Example.order (JArr [Example.item 101; Example.item 102; Example.item 103])))))
    = ([Shop.Begin;
       Shop.InsertOrder (Shop.order_uuid Example.order_db)
         (Shop.property "userId"
            (body (Example.order
                     (JArr [Example.item 101; Example.item 102; Example.item 103]))))
         (Shop.property "totalAmount"
            (body (Example.order
                     (JArr [Example.item 101; Example.item 102; Example.item 103]))))
         "pending"]
      ++ (Shop.item_statement (Shop.order_uuid Example.order_db)
            <$> take 2 [Example.item 101; Example.item 102; Example.item 103])
      ++ [Shop.Rollback])%list.
Proof.
  apply (order_stops_at_first_rejected_item Example.order_db
           (Example.order (JArr [Example.item 101; Example.item 102; Example.item 103]))
           [Example.item 101; Example.item 102; Example.item 103]
           (JObj [("id", JNum 1)]) 1 "null value in column").
  - discriminate.
  - reflexivity.
  - reflexivity.
  - reflexivity.
  - repeat constructor; discriminate.
  - reflexivity.
  - reflexivity.
  - reflexivity.
  - simpl. lia.
  - intros j Hj. assert (j = 0%nat) as -> by lia. reflexivity.
  - reflexivity.
  - reflexivity.
Defined.

(** X25: an order whose [items] is truthy but neither an array nor a string
    (a number, [true], an object) is not rejected by the validation: the
    order row is inserted, the loop throws, and the handler sends ROLLBACK
    and answers 500. *)
Theorem order_with_items_not_iterable db req order :
  body req ≠ JNull →
  Shop.truthy (Shop.property "userId" (body req)) = true →
  Shop.truthy (Shop.property "totalAmount" (body req)) = true →
  Shop.truthy (Shop.property "items" (body req)) = true →
  Shop.elements_of (Shop.property "items" (body req)) = None →
  Shop.order_connect db = None → Shop.order_begin db = None →
  Shop.order_insert db = inr order →
  Shop.order_rollback db = None →
  Shop.answers (Shop.run_of (Shop.orderHandler db req))
    = [(500, Shop.order_failure "items is not iterable")] ∧
  Shop.statements_of (Shop.events (Shop.run_of (Shop.orderHandler db req)))
    = [Shop.Begin;
       Shop.InsertOrder (Shop.order_uuid db) (Shop.property "userId" (body req))
         (Shop.property "totalAmount" (body req)) "pending";
       Shop.Rollback].
Proof.
  intros Hbody Hu Ht Hi He Hc Hb Hins Hrb. unfold Shop.run_of.
  rewrite order_runs by done. rewrite Hu, Ht, Hi, He, Hc, Hb, Hins. simpl.
  by rewrite Hrb.
Qed.

Lemma order_with_items_not_iterable_witness :
  Shop.answers
    (Shop.run_of (Shop.orderHandler Example.order_db (Example.order (JNum 3))))
    = [(500, Shop.order_failure "items is not iterable")] ∧
  Shop.statements_of
    (Shop.events (Shop.run_of (Shop.orderHandler Example.order_db (Example.order (JNum 3)))))
    = [Shop.Begin;
       Shop.InsertOrder (Shop.order_uuid Example.order_db)
         (Shop.property "userId" (body (Example.order (JNum 3))))
         (Shop.property "totalAmount" (body (Example.order (JNum 3)))) "pending";
       Shop.Rollback].
Proof.
  apply (order_with_items_not_iterable Example.order_db (Example.order (JNum 3))
           (JObj [("id", JNum 1)])).
  - discriminate.
  - reflexivity.
  - reflexivity.
  - reflexivity.
  - reflexivity.
  - reflexivity.
  - reflexivity.
  - reflexivity.
  - reflexivity.
Defined.

(** X26: on every run of the order handler the connection is released exactly
    as often as it was obtained, at most once; the handler answers at most
    once; it answers 201 only when COMMIT was the last statement sent, no
    ROLLBACK was sent, and one item insert was sent for every element of
    [items]; it answers 500 only after a ROLLBACK sent last. *)
Theorem order_transaction_discipline db req :
  Shop.occurrences Shop.is_release (Shop.events (Shop.run_of (Shop.orderHandler db req)))
    = Shop.occurrences Shop.is_connect (Shop.events (Shop.run_of (Shop.orderHandler db req)))
  ∧ (Shop.occurrences Shop.is_connect
       (Shop.events (Shop.run_of (Shop.orderHandler db req))) ≤ 1)%nat
  ∧ match Shop.answers (Shop.run_of (Shop.orderHandler db req)) with
    | [] => ∃ m, Shop.completion_of (Shop.orderHandler db req) = Throw m
    | [(code, payload)] =>
        Shop.completion_of (Shop.orderHandler db req) = Normal tt ∧
        (code = 400 ∧ Shop.events (Shop.run_of (Shop.orderHandler db req)) = []
         ∨ code = 201 ∧
           last (Shop.statements_of (Shop.events (Shop.run_of (Shop.orderHandler db req))))
             = Some Shop.Commit ∧
           existsb Shop.is_rollback
             (Shop.statements_of (Shop.events (Shop.run_of (Shop.orderHandler db req))))
             = false ∧
           (∃ elements,
              Shop.elements_of (Shop.property "items" (body req)) = Some elements ∧
              length (List.filter Shop.is_item
                        (Shop.statements_of
                           (Shop.events (Shop.run_of (Shop.orderHandler db req)))))
                = length elements)
         ∨ code = 500 ∧
           last (Shop.statements_of (Shop.events (Shop.run_of (Shop.orderHandler db req))))
             = Some Shop.Rollback ∧
           ∃ m, payload = Shop.order_failure m)
    | _ => False
    end.
Proof.
  destruct (null_or_not (body req)) as [Hnull|Hbody].
  { unfold_shop. rewrite Hnull. simpl. split; [done|]. split; [vm_compute; lia|]. eauto. }
  unfold Shop.run_of, Shop.completion_of. rewrite order_runs by done.
  destruct (negb _ || negb _ || negb _).
  { simpl. split; [done|]. split; [vm_compute; lia|]. auto. }
  destruct (Shop.order_connect db).
  { simpl. split; [done|]. split; [vm_compute; lia|]. eauto. }
  assert (∀ sent m,
            let run :=
              match Shop.order_rollback db with
              | Some m' =>
                  (Throw m' : Completion unit,
                   {| Shop.events := Shop.Connect :: (Shop.Query <$> sent)
                                     ++ [Shop.Query Shop.Rollback; Shop.Release];
                      Shop.answers := [] |})
              | None =>
                  (Normal tt,
                   {| Shop.events := Shop.Connect :: (Shop.Query <$> sent)
                                     ++ [Shop.Query Shop.Rollback;
                                         Shop.ConsoleError "Order creation error:";
                                         Shop.Release];
                      Shop.answers := [(500, Shop.order_failure m)] |})
              end in
            Shop.occurrences Shop.is_release (Shop.events run.2)
              = Shop.occurrences Shop.is_connect (Shop.events run.2)
            ∧ (Shop.occurrences Shop.is_connect (Shop.events run.2) ≤ 1)%nat
            ∧ match Shop.answers run.2 with
              | [] => ∃ m, run.1 = Throw m
              | [(code, payload)] =>
                  run.1 = Normal tt ∧
                  (code = 400 ∧ Shop.events run.2 = []
                   ∨ code = 201 ∧
                     last (Shop.statements_of (Shop.events run.2)) = Some Shop.Commit ∧
                     existsb Shop.is_rollback (Shop.statements_of (Shop.events run.2))
                       = false ∧
                     (∃ elements,
                        Shop.elements_of (Shop.property "items" (body req))
                          = Some elements ∧
                        length (List.filter Shop.is_item
                                  (Shop.statements_of (Shop.events run.2)))
                          = length elements)
                   ∨ code = 500 ∧
                     last (Shop.statements_of (Shop.events run.2)) = Some Shop.Rollback ∧
                     ∃ m, payload = Shop.order_failure m)
              | _ => False
              end) as Hfailed.
  { intros sent m.
    destruct (Shop.order_rollback db); cbn [fst snd Shop.events Shop.answers].
    - rewrite !occurrences_cons, !occurrences_app.
      rewrite !occurrences_queries by done. split; [reflexivity|]. split; [vm_compute; lia|]. eauto.
    - rewrite !occurrences_cons, !occurrences_app.
      rewrite !occurrences_queries by done. split; [reflexivity|]. split; [vm_compute; lia|].
      split; [done|]. right. right. split; [done|]. split; [|eauto].
      cbn [Shop.statements_of]. rewrite statements_of_app, statements_of_queries.
      simpl. by rewrite last_snoc. }
  cbv zeta.
  destruct (Shop.order_begin db); [apply Hfailed|].
  destruct (Shop.order_insert db) as [?|order]; [apply Hfailed|].
  destruct (Shop.elements_of _) as [elements|] eqn:Hel; [|apply Hfailed].
  destruct (Shop.items_outcome db (Shop.order_uuid db) 0 elements).2 eqn:Hloop;
    [apply Hfailed|].
  destruct (Shop.order_commit db); [apply Hfailed|].
  cbn [fst snd Shop.events Shop.answers].
  destruct (items_outcome_no_rollback db (Shop.order_uuid db) 0 elements) as (Hrb & _ & Hit).
  pose proof (items_outcome_complete db (Shop.order_uuid db) 0 elements Hloop) as Hlen.
  rewrite !occurrences_cons, !occurrences_app.
  rewrite !occurrences_queries by done. split; [reflexivity|]. split; [vm_compute; lia|].
  split; [done|]. right. left. split; [done|].
  cbn [Shop.statements_of]. rewrite statements_of_app, statements_of_queries.
  cbn [Shop.statements_of]. rewrite app_nil_r, !app_assoc, last_snoc.
  split; [done|]. split.
  - rewrite !existsb_app, Hrb. done.
  - exists elements. split; [done|].
    rewrite !List.filter_app, !length_app, <- Hit, Hlen. simpl. lia.
Qed.

(** ** The payment handler behind the middleware *)




Lemma payment_validation_rejects_witness :
  Shop.paymentHandler Example.payment_db (Scenario.post "K1" Example.zero_payment) Shop.fresh
    = (Normal tt, {| Shop.events := []; Shop.answers := [(400, Shop.payment_invalid)] |}).
Proof.
  apply (payment_validation_rejects Example.payment_db
           (Scenario.post "K1" Example.zero_payment)).
  - discriminate.
  - left. reflexivity.
Defined.

Lemma payment_for_unknown_user_witness :
  Shop.answers
    (Shop.run_of (Shop.paymentHandler Example.unknown_user_db
                    (Scenario.post "K1" Scenario.payment)))
    = [(500, Shop.payment_failure "User not found")] ∧
  Shop.statements_of
    (Shop.events (Shop.run_of (Shop.paymentHandler Example.unknown_user_db
                                 (Scenario.post "K1" Scenario.payment))))
    = [Shop.Begin;
       Shop.InsertPayment (Shop.payment_uuid Example.unknown_user_db)
         (Shop.property "userId" (body (Scenario.post "K1" Scenario.payment)))
         (Shop.property "amount" (body (Scenario.post "K1" Scenario.payment)))
         (Shop.or_null
            (Shop.property "description" (body (Scenario.post "K1" Scenario.payment))))
         "completed";
       Shop.UpdateBalance
         (Shop.property "amount" (body (Scenario.post "K1" Scenario.payment)))
         (Shop.property "userId" (body (Scenario.post "K1" Scenario.payment)));
       Shop.Rollback] ∧
  Shop.occurrences Shop.is_release
    (Shop.events (Shop.run_of (Shop.paymentHandler Example.unknown_user_db
                                 (Scenario.post "K1" Scenario.payment))))
    = 1%nat.
Proof.
  apply (payment_for_unknown_user Example.unknown_user_db
           (Scenario.post "K1" Scenario.payment) (JObj [("id", JNum 1)])).
  - discriminate.
  - reflexivity.
  - reflexivity.
  - reflexivity.
  - reflexivity.
  - reflexivity.
  - reflexivity.
  - reflexivity.
Defined.

(** X27: an order request whose body lacks [userId], [items] or [totalAmount], or
    has one of them falsy (an empty string of items, a total of [0]), is
    answered 400 before a connection is obtained or a statement sent. *)
Theorem order_validation_rejects db req :
  body req ≠ JNull →
  Shop.truthy (Shop.property "userId" (body req)) = false
  ∨ Shop.truthy (Shop.property "items" (body req)) = false
  ∨ Shop.truthy (Shop.property "totalAmount" (body req)) = false →
  Shop.orderHandler db req Shop.fresh =
    (Normal tt, {| Shop.events := []; Shop.answers := [(400, Shop.order_invalid)] |}).
Proof.
  intros Hbody Hfalsy. rewrite order_runs by done.
  destruct Hfalsy as [-> | [-> | ->]]; simpl; [done| |].
  - by rewrite orb_true_r.
  - by rewrite orb_true_r.
Qed.

Lemma order_validation_rejects_witness :
  Shop.orderHandler Example.order_db (Example.order (JStr "")) Shop.fresh
    = (Normal tt, {| Shop.events := []; Shop.answers := [(400, Shop.order_invalid)] |}).
Proof.
  apply (order_validation_rejects Example.order_db (Example.order (JStr ""))).
  - discriminate.
  - right. left. reflexivity.
Defined.
